(** * CLINE-MCP: the session registry and its tool dispatcher

    A shallow embedding of [cline-mcp-server/src/lib/sessionManager.ts] and
    of [cline-mcp-server/src/index.ts]: the tool-call handler of the server
    and the class RedisClient that is listed after it.

    Conventions of the embedding.
    - A JavaScript string is a [string] holding the UTF-8 encoding of a
      well-formed Unicode text (lone surrogates are outside the model).
    - [async]/[await] is sequential composition: one call runs to completion
      before the next starts.  Interleavings of concurrent calls are not
      modelled.
    - The Redis backend is reliable: [get], [set] and [del] always answer.
    - [console.log] and [console.error] lines are not recorded.
    - The system clock and the random generator belong to the environment:
      an [Env] gives the outcome of the n-th [new Date()] and of the n-th
      [crypto.randomBytes(16)]; the world counts how many were consumed.
      Nothing is assumed of them in the definitions; the statements on the
      order of timestamps name their assumption, [clock_monotone], and the
      one on histories names [fresh_calls]. *)

From Stdlib Require Import ZArith NArith Lia List.
From Stdlib Require Import Ascii String.
From stdpp Require Import base option list strings gmap.

(** ** Hexadecimal rendering (Buffer.toString('hex'), digest('hex')) *)

Module Hex.

Definition hex_digit (n : N) : ascii :=
  match n with
  | 0%N => "0" | 1%N => "1" | 2%N => "2" | 3%N => "3"
  | 4%N => "4" | 5%N => "5" | 6%N => "6" | 7%N => "7"
  | 8%N => "8" | 9%N => "9" | 10%N => "a" | 11%N => "b"
  | 12%N => "c" | 13%N => "d" | 14%N => "e" | _ => "f"
  end%char.

(** Two lowercase hex digits of a byte. *)
Definition hex_byte (b : N) (rest : string) : string :=
  String (hex_digit ((b / 16) mod 16)) (String (hex_digit (b mod 16)) rest).

Fixpoint hex_bytes (bs : list N) : string :=
  match bs with
  | [] => ""
  | b :: bs' => hex_byte b (hex_bytes bs')
  end.

(** The [n] low bytes of [x], most significant first. *)
Fixpoint be_bytes (n : nat) (x : N) : list N :=
  match n with
  | O => []
  | S n' => ((x / 256 ^ N.of_nat n') mod 256)%N :: be_bytes n' x
  end.

End Hex.

(** ** SHA-256 (crypto.createHash('sha256')), FIPS 180-4 *)

Module Sha256.

Definition w32 : N := 4294967296.

Definition add32 (a b : N) : N := ((a + b) mod w32)%N.
Definition not32 (a : N) : N := N.lxor a (w32 - 1).
Definition shr (n x : N) : N := N.shiftr x n.
Definition rotr (n x : N) : N :=
  (N.lor (N.shiftr x n) (N.shiftl x (32 - n)) mod w32)%N.

Definition Ch (x y z : N) : N := N.lxor (N.land x y) (N.land (not32 x) z).
Definition Maj (x y z : N) : N :=
  N.lxor (N.lxor (N.land x y) (N.land x z)) (N.land y z).
Definition Sigma0 (x : N) : N := N.lxor (N.lxor (rotr 2 x) (rotr 13 x)) (rotr 22 x).
Definition Sigma1 (x : N) : N := N.lxor (N.lxor (rotr 6 x) (rotr 11 x)) (rotr 25 x).
Definition sigma0 (x : N) : N := N.lxor (N.lxor (rotr 7 x) (rotr 18 x)) (shr 3 x).
Definition sigma1 (x : N) : N := N.lxor (N.lxor (rotr 17 x) (rotr 19 x)) (shr 10 x).

(** The round constants and the initial hash value are the first 32 bits
    of the fractional parts of the cube roots of the first 64 primes, and of
    the square roots of the first 8. *)
Definition is_prime (n : nat) : bool :=
  forallb (λ d, negb (n mod d =? 0)) (seq 2 (n - 2)).

Definition primes : list N := map N.of_nat (filter is_prime (seq 2 310)).

(** The integer part of the [k]-th root of [n], found bit by bit. *)
Fixpoint root (k : N) (n : N) (bits : nat) (x : N) : N :=
  match bits with
  | O => x
  | S b =>
      let y := (x + 2 ^ N.of_nat b)%N in
      if (y ^ k <=? n)%N then root k n b y else root k n b x
  end.

Definition frac_root (k : N) (p : N) : N :=
  (root k (p * 2 ^ (32 * k)) 36 0 mod w32)%N.

Definition K : list N := Eval vm_compute in map (frac_root 3) primes.

(** The eight working variables a..h, also the chaining value. *)
Record state := State
  { sa : N; sb : N; sc : N; sd : N; se : N; sf : N; sg : N; sh : N }.

Definition H0 : state :=
  Eval vm_compute in
  let h := λ i, frac_root 2 (nth i primes 0%N) in
  State (h 0) (h 1) (h 2) (h 3) (h 4) (h 5) (h 6) (h 7).

(** Padding: a 1 bit, zeros up to 56 mod 64, then the bit length on 8 bytes. *)
Definition pad (msg : list N) : list N :=
  let len := length msg in
  let zeros := (64 - (len + 9) mod 64) mod 64 in
  msg ++ (128%N :: replicate zeros 0%N) ++ Hex.be_bytes 8 (8 * N.of_nat len).

Fixpoint words (n : nat) (bs : list N) : list N :=
  match n, bs with
  | S n', b0 :: b1 :: b2 :: b3 :: bs' =>
      (((b0 * 256 + b1) * 256 + b2) * 256 + b3)%N :: words n' bs'
  | _, _ => []
  end.

(** Message schedule; [rev_w] holds W[t-1], W[t-2], ... *)
Fixpoint schedule (n : nat) (rev_w : list N) : list N :=
  match n with
  | O => rev rev_w
  | S n' =>
      let w := add32 (add32 (sigma1 (nth 1 rev_w 0%N)) (nth 6 rev_w 0%N))
                     (add32 (sigma0 (nth 14 rev_w 0%N)) (nth 15 rev_w 0%N)) in
      schedule n' (w :: rev_w)
  end.

Definition round (s : state) (kw : N * N) : state :=
  let '(k, w) := kw in
  let t1 := add32 (add32 (add32 (sh s) (Sigma1 (se s))) (Ch (se s) (sf s) (sg s)))
                  (add32 k w) in
  let t2 := add32 (Sigma0 (sa s)) (Maj (sa s) (sb s) (sc s)) in
  State (add32 t1 t2) (sa s) (sb s) (sc s) (add32 (sd s) t1) (se s) (sf s) (sg s).

Definition compress (h : state) (block : list N) : state :=
  let w := schedule 48 (rev (words 16 block)) in
  let s := fold_left round (combine K w) h in
  State (add32 (sa h) (sa s)) (add32 (sb h) (sb s)) (add32 (sc h) (sc s))
        (add32 (sd h) (sd s)) (add32 (se h) (se s)) (add32 (sf h) (sf s))
        (add32 (sg h) (sg s)) (add32 (sh h) (sh s)).

Fixpoint blocks (n : nat) (h : state) (bs : list N) : state :=
  match n with
  | O => h
  | S n' => blocks n' (compress h (firstn 64 bs)) (skipn 64 bs)
  end.

Definition bytes_of_string (s : string) : list N :=
  map N_of_ascii (list_ascii_of_string s).

Definition digest (msg : list N) : state :=
  let p := pad msg in blocks (length p / 64) H0 p.

Definition hex_word (w : N) (rest : string) : string :=
  Hex.hex_byte ((w / 16777216) mod 256) (Hex.hex_byte ((w / 65536) mod 256)
    (Hex.hex_byte ((w / 256) mod 256) (Hex.hex_byte (w mod 256) rest))).

(** createHash('sha256').update(s).digest('hex') *)
Definition sha256_hex (s : string) : string :=
  let h := digest (bytes_of_string s) in
  hex_word (sa h) (hex_word (sb h) (hex_word (sc h) (hex_word (sd h)
    (hex_word (se h) (hex_word (sf h) (hex_word (sg h) (hex_word (sh h) ""))))))).

End Sha256.

(** ** Date.prototype.toISOString *)

Module IsoDate.

Definition msPerDay : Z := 86400000.

(** Proleptic Gregorian date (year, month, day) of a day number counted
    from 1970-01-01. *)
Definition civil_from_days (days : Z) : Z * Z * Z :=
  let z := (days + 719468)%Z in
  let era := (z / 146097)%Z in
  let doe := (z - era * 146097)%Z in
  let yoe := ((doe - doe / 1460 + doe / 36524 - doe / 146096) / 365)%Z in
  let doy := (doe - (365 * yoe + yoe / 4 - yoe / 100))%Z in
  let mp := ((5 * doy + 2) / 153)%Z in
  let d := (doy - (153 * mp + 2) / 5 + 1)%Z in
  let m := (if (mp <? 10)%Z then mp + 3 else mp - 9)%Z in
  let y := (yoe + era * 400 + (if (m <=? 2)%Z then 1 else 0))%Z in
  (y, m, d).

Definition digit (n : Z) : ascii := ascii_of_N (48 + Z.to_N (n mod 10)).

Definition pad2 (n : Z) : string :=
  String (digit (n / 10)) (String (digit n) "").
Definition pad3 (n : Z) : string := String (digit (n / 100)) (pad2 n).
Definition pad4 (n : Z) : string := String (digit (n / 1000)) (pad3 n).
Definition pad6 (n : Z) : string :=
  String (digit (n / 100000)) (String (digit (n / 10000)) (pad4 n)).

(** Years 0..9999 take four digits, the others a sign and six digits. *)
Definition year (y : Z) : string :=
  if ((0 <=? y) && (y <=? 9999))%Z then pad4 y
  else (if (y <? 0)%Z then "-" else "+") +:+ pad6 (Z.abs y).

(** [toISOString t] for a time value [t] in milliseconds since the epoch. *)
Definition toISOString (t : Z) : string :=
  let '(y, m, d) := civil_from_days (t / msPerDay) in
  let ms := (t mod msPerDay)%Z in
  year y +:+ "-" +:+ pad2 m +:+ "-" +:+ pad2 d +:+ "T" +:+
  pad2 (ms / 3600000) +:+ ":" +:+ pad2 (ms / 60000 mod 60) +:+ ":" +:+
  pad2 (ms / 1000 mod 60) +:+ "." +:+ pad3 (ms mod 1000) +:+ "Z".

(** The day number of a date, counted from 1970-01-01: the inverse of
    [civil_from_days]. *)
Definition days_from_civil (y m d : Z) : Z :=
  let y' := (if (m <=? 2)%Z then y - 1 else y)%Z in
  let era := (y' / 400)%Z in
  let yoe := (y' - era * 400)%Z in
  let mp := (if (m <=? 2)%Z then m + 9 else m - 3)%Z in
  let doy := ((153 * mp + 2) / 5 + d - 1)%Z in
  let doe := (yoe * 365 + yoe / 4 - yoe / 100 + doy)%Z in
  (era * 146097 + doe - 719468)%Z.

(** The time values of a Date: 100 million days on each side of the epoch. *)
Definition valid_time (t : Z) : Prop :=
  (-8640000000000000 <= t <= 8640000000000000)%Z.

End IsoDate.

(** ** The data model (interface SessionContext) *)

Module Model.

Record HistoryEntry := { timestamp : string; content : string }.

Record Metadata := { createdAt : string; lastAccessed : string }.

Record SessionContext :=
  { directory : string; history : list HistoryEntry; metadata : Metadata }.

End Model.
Export Model.

(** ** JSON.stringify and JSON.parse

    [stringify] writes a [SessionContext] the way [JSON.stringify] does:
    own properties in creation order, no white space, strings quoted by
    QuoteJSONString.  [parse] reads that grammar back; [None] stands for
    every outcome in which the JavaScript code does not get a
    [SessionContext] (a SyntaxError, or a value of another shape).  Store
    content that the registry did not write itself is outside the model. *)

Module JSON.

Definition dquote : ascii := "034"%char.
Definition backslash : ascii := "092"%char.

(** QuoteJSONString, one character. *)
Definition escape (c : ascii) : string :=
  let n := N_of_ascii c in
  if (n =? 8)%N then "\b"
  else if (n =? 9)%N then "\t"
  else if (n =? 10)%N then "\n"
  else if (n =? 12)%N then "\f"
  else if (n =? 13)%N then "\r"
  else if (n =? 34)%N then String backslash (String dquote "")
  else if (n =? 92)%N then String backslash (String backslash "")
  else if (n <? 32)%N then "\u00" +:+ Hex.hex_byte n ""
  else String c "".

Fixpoint quote_body (s : string) : string :=
  match s with
  | EmptyString => ""
  | String c s' => escape c +:+ quote_body s'
  end.

Definition quote (s : string) : string :=
  String dquote (quote_body s +:+ String dquote "").

Definition key (k : string) : string := quote k +:+ ":".

Definition stringify_entry (e : HistoryEntry) : string :=
  "{" +:+ key "timestamp" +:+ quote (timestamp e) +:+ "," +:+
  key "content" +:+ quote (content e) +:+ "}".

Fixpoint stringify_entries (h : list HistoryEntry) : string :=
  match h with
  | [] => ""
  | [e] => stringify_entry e
  | e :: h' => stringify_entry e +:+ "," +:+ stringify_entries h'
  end.

Definition stringify_metadata (m : Metadata) : string :=
  "{" +:+ key "createdAt" +:+ quote (createdAt m) +:+ "," +:+
  key "lastAccessed" +:+ quote (lastAccessed m) +:+ "}".

(** JSON.stringify(context) *)
Definition stringify (c : SessionContext) : string :=
  "{" +:+ key "directory" +:+ quote (directory c) +:+ "," +:+
  key "history" +:+ "[" +:+ stringify_entries (history c) +:+ "]" +:+ "," +:+
  key "metadata" +:+ stringify_metadata (metadata c) +:+ "}".

(** JSON.stringify(context) for a [SessionContext | null]. *)
Definition stringify_nullable (c : option SessionContext) : string :=
  match c with
  | Some c => stringify c
  | None => "null"
  end.

(** JSON.stringify({ sessionId }) *)
Definition stringify_sessionId (sessionId : string) : string :=
  "{" +:+ key "sessionId" +:+ quote sessionId +:+ "}".

(** JSON.stringify({ success: true }) *)
Definition stringify_success : string := "{" +:+ key "success" +:+ "true}".

Definition hex_value (c : ascii) : option N :=
  let n := N_of_ascii c in
  if ((48 <=? n) && (n <=? 57))%N then Some (n - 48)%N
  else if ((97 <=? n) && (n <=? 102))%N then Some (n - 87)%N
  else if ((65 <=? n) && (n <=? 70))%N then Some (n - 55)%N
  else None.

Definition hex4 (a b c d : ascii) : option N :=
  x ← hex_value a; y ← hex_value b; z ← hex_value c; w ← hex_value d;
  Some (((x * 16 + y) * 16 + z) * 16 + w)%N.

(** UTF-8 encoding of a code point of the Basic Multilingual Plane;
    surrogates (and so the pairs that escape the other planes) are not
    decoded. *)
Definition utf8 (cp : N) : option string :=
  if (cp <? 128)%N then Some (String (ascii_of_N cp) "")
  else if (cp <? 2048)%N then
    Some (String (ascii_of_N (192 + cp / 64))
         (String (ascii_of_N (128 + cp mod 64)) ""))
  else if ((55296 <=? cp) && (cp <=? 57343))%N then None
  else
    Some (String (ascii_of_N (224 + cp / 4096))
         (String (ascii_of_N (128 + (cp / 64) mod 64))
         (String (ascii_of_N (128 + cp mod 64)) ""))).

Definition simple_escape (e : ascii) : option ascii :=
  let n := N_of_ascii e in
  if (n =? 34)%N then Some dquote
  else if (n =? 92)%N then Some backslash
  else if (n =? 47)%N then Some "/"%char
  else if (n =? 98)%N then Some (ascii_of_N 8)
  else if (n =? 102)%N then Some (ascii_of_N 12)
  else if (n =? 110)%N then Some (ascii_of_N 10)
  else if (n =? 114)%N then Some (ascii_of_N 13)
  else if (n =? 116)%N then Some (ascii_of_N 9)
  else None.

(** The characters of a JSON string after its opening quote, up to and
    including the closing one; answers the decoded text and what follows. *)
Fixpoint unquote_body (s : string) : option (string * string) :=
  match s with
  | EmptyString => None
  | String c s' =>
      if Ascii.eqb c dquote then Some ("", s')
      else if Ascii.eqb c backslash then
        match s' with
        | String e s'' =>
            if Ascii.eqb e "u" then
              match s'' with
              | String h1 (String h2 (String h3 (String h4 s3))) =>
                  cp ← hex4 h1 h2 h3 h4;
                  bytes ← utf8 cp;
                  '(r, rest) ← unquote_body s3;
                  Some (bytes +:+ r, rest)
              | _ => None
              end
            else
              a ← simple_escape e;
              '(r, rest) ← unquote_body s'';
              Some (String a r, rest)
        | EmptyString => None
        end
      else if (N_of_ascii c <? 32)%N then None
      else '(r, rest) ← unquote_body s'; Some (String c r, rest)
  end.

(** Consumes the literal [lit] at the head of [s]. *)
Fixpoint expect (lit s : string) : option string :=
  match lit, s with
  | EmptyString, _ => Some s
  | String a lit', String b s' => if Ascii.eqb a b then expect lit' s' else None
  | String _ _, EmptyString => None
  end.

Definition parse_string (s : string) : option (string * string) :=
  s1 ← expect (String dquote "") s; unquote_body s1.

Definition parse_member (k : string) (s : string) : option (string * string) :=
  s1 ← expect (key k) s; parse_string s1.

Definition parse_entry (s : string) : option (HistoryEntry * string) :=
  s1 ← expect "{" s;
  '(t, s2) ← parse_member "timestamp" s1;
  s3 ← expect "," s2;
  '(c, s4) ← parse_member "content" s3;
  s5 ← expect "}" s4;
  Some ({| timestamp := t; content := c |}, s5).

(** entry ("," entry)* "]" *)
Fixpoint parse_entries (fuel : nat) (s : string)
  : option (list HistoryEntry * string) :=
  match fuel with
  | O => None
  | S fuel' =>
      '(e, s1) ← parse_entry s;
      match s1 with
      | String c s2 =>
          if Ascii.eqb c "]" then Some ([e], s2)
          else if Ascii.eqb c "," then
            '(es, s3) ← parse_entries fuel' s2; Some (e :: es, s3)
          else None
      | EmptyString => None
      end
  end.

Definition parse_history (s : string) : option (list HistoryEntry * string) :=
  s1 ← expect "[" s;
  match s1 with
  | String c s2 =>
      if Ascii.eqb c "]" then Some ([], s2)
      else parse_entries (String.length s1) s1
  | EmptyString => None
  end.

Definition parse_metadata (s : string) : option (Metadata * string) :=
  s1 ← expect "{" s;
  '(c, s2) ← parse_member "createdAt" s1;
  s3 ← expect "," s2;
  '(l, s4) ← parse_member "lastAccessed" s3;
  s5 ← expect "}" s4;
  Some ({| createdAt := c; lastAccessed := l |}, s5).

(** JSON.parse(data) as SessionContext *)
Definition parse (data : string) : option SessionContext :=
  s1 ← expect "{" data;
  '(d, s2) ← parse_member "directory" s1;
  s3 ← expect ("," +:+ key "history") s2;
  '(h, s4) ← parse_history s3;
  s5 ← expect ("," +:+ key "metadata") s4;
  '(m, s6) ← parse_metadata s5;
  s7 ← expect "}" s6;
  match s7 with
  | EmptyString => Some {| directory := d; history := h; metadata := m |}
  | String _ _ => None
  end.

End JSON.

(** ** The environment and the world *)

(** Codes of the protocol errors the dispatcher raises (SDK enum ErrorCode). *)
Inductive ErrorCode := InvalidParams | MethodNotFound | InternalError.

(** What the code can throw.  [Error m] is [new Error(m)], [McpError c m] is
    [new McpError(c, m)].  [BadRecord] is raised where [JSON.parse] does not
    yield a [SessionContext]: the stored text was not written by the
    registry, and what JavaScript does with it is not modelled. *)
Inductive exn :=
  | Error (message : string)
  | McpError (code : ErrorCode) (message : string)
  | BadRecord.

(** What surrounds the code: the n-th reading of the system clock
    (milliseconds since the epoch), the n-th draw of 128 random bits, and the
    [message] property that the SDK's McpError constructor derives from a
    code and a text. *)
Record Env := {
  clock : nat → Z;
  entropy : nat → N;
  mcpMessage : ErrorCode → string → string
}.

(** class RedisClient: the [connected] flag and the content of the backend. *)
Record RedisClient := { connected : bool; data : gmap string string }.

Record World := { redis : RedisClient; ticks : nat; draws : nat }.

Inductive Result (A : Type) :=
  | Ok (a : A)
  | Throw (e : exn).
Arguments Ok {A} a.
Arguments Throw {A} e.

(** Computations: a state monad over the world with exceptions. *)
Definition M (A : Type) : Type := World → Result A * World.

Definition ret {A} (a : A) : M A := λ w, (Ok a, w).

Definition bind {A B} (m : M A) (k : A → M B) : M B :=
  λ w, match m w with
       | (Ok a, w') => k a w'
       | (Throw e, w') => (Throw e, w')
       end.

Definition throw {A} (e : exn) : M A := λ w, (Throw e, w).

(** try { m } catch (error) { h error } *)
Definition try_catch {A} (m : M A) (h : exn → M A) : M A :=
  λ w, match m w with
       | (Ok a, w') => (Ok a, w')
       | (Throw e, w') => h e w'
       end.

Notation "'let*' x := m 'in' k" := (bind m (λ x, k))
  (at level 10, x name, m at level 100, k at level 200, only parsing).
Notation "m ;; k" := (bind m (λ _, k))
  (at level 100, k at level 200, right associativity, only parsing).

(** new Date().toISOString() *)
Definition new_Date_toISOString (E : Env) : M string :=
  λ w, (Ok (IsoDate.toISOString (clock E (ticks w))),
        {| redis := redis w; ticks := S (ticks w); draws := draws w |}).

(** crypto.randomBytes(16) *)
Definition randomBytes16 (E : Env) : M (list N) :=
  λ w, (Ok (Hex.be_bytes 16 (entropy E (draws w))),
        {| redis := redis w; ticks := ticks w; draws := S (draws w) |}).

(** ** The store adapter (class RedisClient)

    [set] is embedded for the two-argument calls the registry makes; its
    optional [expireSeconds] is never passed. *)

Module redisClient.

Definition with_redis (f : RedisClient → RedisClient) : M unit :=
  λ w, (Ok tt, {| redis := f (redis w); ticks := ticks w; draws := draws w |}).

Definition connect : M unit :=
  with_redis (λ r, if negb (connected r)
                   then {| connected := true; data := data r |} else r).

Definition set (key value : string) : M unit :=
  connect ;;
  with_redis (λ r, {| connected := connected r; data := <[key := value]> (data r) |}).

Definition get (key : string) : M (option string) :=
  connect ;;
  λ w, (Ok (data (redis w) !! key), w).

Definition delete (key : string) : M unit :=
  connect ;;
  with_redis (λ r, {| connected := connected r; data := base.delete key (data r) |}).

Definition disconnect : M unit :=
  with_redis (λ r, if connected r
                   then {| connected := false; data := data r |} else r).

Definition isConnected : M bool := λ w, (Ok (connected (redis w)), w).

End redisClient.

(** ** The session registry (class SessionManager) *)

Module SessionManager.

Definition SESSION_PREFIX : string := "cline:session:".
Definition CONTEXT_PREFIX : string := "cline:context:".

Definition generateSessionId (E : Env) : M string :=
  let* bytes := randomBytes16 E in
  ret (Hex.hex_bytes bytes).

Definition hashDirectory (directory : string) : string :=
  String.substring 0 8 (Sha256.sha256_hex directory).

Definition getContextKey (directory sessionId : string) : string :=
  CONTEXT_PREFIX +:+ hashDirectory directory +:+ ":" +:+ sessionId.

(** [!data] for a [string | null]. *)
Definition falsy (data : option string) : bool :=
  match data with
  | None => true
  | Some s => String.eqb s ""
  end.

Definition JSON_parse (data : option string) : M SessionContext :=
  match data ≫= JSON.parse with
  | Some context => ret context
  | None => throw BadRecord
  end.

Definition createSession (E : Env) (directory : string) : M string :=
  let* sessionId := generateSessionId E in
  let contextKey := getContextKey directory sessionId in
  let* created := new_Date_toISOString E in
  let* accessed := new_Date_toISOString E in
  let initialContext :=
    {| directory := directory;
       history := [];
       metadata := {| createdAt := created; lastAccessed := accessed |} |} in
  redisClient.set contextKey (JSON.stringify initialContext) ;;
  ret sessionId.

Definition getContext (E : Env) (directory sessionId : string)
  : M (option SessionContext) :=
  let contextKey := getContextKey directory sessionId in
  let* data := redisClient.get contextKey in
  if falsy data then ret None
  else
    let* context := JSON_parse data in
    let* accessed := new_Date_toISOString E in
    let context :=
      {| directory := Model.directory context;
         history := history context;
         metadata := {| createdAt := createdAt (metadata context);
                        lastAccessed := accessed |} |} in
    redisClient.set contextKey (JSON.stringify context) ;;
    ret (Some context).

Definition updateContext (E : Env) (directory sessionId content : string)
  : M unit :=
  let contextKey := getContextKey directory sessionId in
  let* existingData := redisClient.get contextKey in
  if falsy existingData then
    throw (Error ("No context found for session " +:+ sessionId +:+
                  " in directory " +:+ directory))
  else
    let* context := JSON_parse existingData in
    let* stamp := new_Date_toISOString E in
    let* accessed := new_Date_toISOString E in
    let context :=
      {| directory := Model.directory context;
         history := history context ++ [ {| timestamp := stamp; content := content |} ];
         metadata := {| createdAt := createdAt (metadata context);
                        lastAccessed := accessed |} |} in
    redisClient.set contextKey (JSON.stringify context).

Definition endSession (directory sessionId : string) : M unit :=
  let contextKey := getContextKey directory sessionId in
  redisClient.delete contextKey.

Definition validateSession (E : Env) (directory sessionId : string) : M bool :=
  let* context := getContext E directory sessionId in
  ret (match context with
       | Some c => String.eqb (Model.directory c) directory
       | None => false
       end).

End SessionManager.

(** ** The tool-call handler (index.ts, CallToolRequestSchema) *)

Module ClineMcpServer.

(** The values a request can carry in [params.arguments].  Of a number the
    handler observes only its type and whether it is zero. *)
#[warnings="-register-all"]
Inductive jsval :=
  | JUndefined
  | JNull
  | JBool (b : bool)
  | JNumber (n : Z)
  | JString (s : string)
  | JArray (items : list jsval)
  | JObject (fields : list (string * jsval)).

Definition typeof (v : jsval) : string :=
  match v with
  | JUndefined => "undefined"
  | JNull => "object"
  | JBool _ => "boolean"
  | JNumber _ => "number"
  | JString _ => "string"
  | JArray _ => "object"
  | JObject _ => "object"
  end.

(** ToBoolean *)
Definition truthy (v : jsval) : bool :=
  match v with
  | JUndefined | JNull => false
  | JBool b => b
  | JNumber n => negb (n =? 0)%Z
  | JString s => negb (String.eqb s "")
  | JArray _ | JObject _ => true
  end.

Fixpoint assoc (k : string) (fields : list (string * jsval)) : option jsval :=
  match fields with
  | [] => None
  | (k', v) :: fields' => if String.eqb k k' then Some v else assoc k fields'
  end.

(** [k in v], for the names the handler asks for ([directory], [sessionId],
    [content]): none of them is inherited from a prototype, so the test
    holds exactly for an own property of an object. *)
Definition has_property (k : string) (v : jsval) : bool :=
  match v with
  | JObject fields => bool_decide (is_Some (assoc k fields))
  | _ => false
  end.

(** [v.k], for the same names. *)
Definition get_property (k : string) (v : jsval) : jsval :=
  match v with
  | JObject fields => default JUndefined (assoc k fields)
  | _ => JUndefined
  end.

(** [!(k in args) || typeof args.k !== 'string'] is false: the value. *)
Definition string_param (k : string) (args : jsval) : option string :=
  if negb (has_property k args)
     || negb (String.eqb (typeof (get_property k args)) "string")
  then None
  else match get_property k args with
       | JString s => Some s
       | _ => None
       end.

(** [error instanceof Error ? error.message : String(error)]: everything
    thrown here is an Error. *)
Definition error_message (E : Env) (error : exn) : string :=
  match error with
  | Error m => m
  | McpError c m => mcpMessage E c m
  | BadRecord => "BadRecord"
  end.

(** The handler answers [{content: [{type: 'text', text}]}]; the result of
    the embedding is [text]. *)
Definition callTool (E : Env) (name : string) (args : jsval) : M string :=
  if negb (truthy args) || negb (String.eqb (typeof args) "object") then
    throw (McpError InvalidParams "Invalid arguments")
  else
    try_catch
      (if String.eqb name "create_session" then
         match string_param "directory" args with
         | Some directory =>
             let* sessionId := SessionManager.createSession E directory in
             ret (JSON.stringify_sessionId sessionId)
         | None => throw (McpError InvalidParams "Invalid directory parameter")
         end
       else if String.eqb name "get_context" then
         match string_param "directory" args, string_param "sessionId" args with
         | Some directory, Some sessionId =>
             let* context := SessionManager.getContext E directory sessionId in
             ret (JSON.stringify_nullable context)
         | _, _ =>
             throw (McpError InvalidParams "Invalid directory or sessionId parameter")
         end
       else if String.eqb name "update_context" then
         match string_param "directory" args, string_param "sessionId" args,
               string_param "content" args with
         | Some directory, Some sessionId, Some content =>
             SessionManager.updateContext E directory sessionId content ;;
             ret JSON.stringify_success
         | _, _, _ =>
             throw (McpError InvalidParams
                      "Invalid directory, sessionId, or content parameter")
         end
       else if String.eqb name "end_session" then
         match string_param "directory" args, string_param "sessionId" args with
         | Some directory, Some sessionId =>
             SessionManager.endSession directory sessionId ;;
             ret JSON.stringify_success
         | _, _ =>
             throw (McpError InvalidParams "Invalid directory or sessionId parameter")
         end
       else
         throw (McpError MethodNotFound ("Unknown tool: " +:+ name)))
      (λ error, throw (McpError InternalError (error_message E error))).

(** The answer of the ListToolsRequestSchema handler: for each tool its
    name, its description and its input schema (always of type 'object'),
    with the declared type and description of every property and the names
    of the required ones. *)
Record PropertySchema := { property_type : string; property_description : string }.

Record InputSchema := {
  schema_type : string;
  properties : list (string * PropertySchema);
  required : list string
}.

Record Tool := { name : string; description : string; inputSchema : InputSchema }.

Definition tools : list Tool :=
  [ {| name := "create_session";
       description := "Create a new session for a specific directory";
       inputSchema :=
         {| schema_type := "object";
            properties :=
              [ ("directory",
                 {| property_type := "string";
                    property_description :=
                      "The directory path to create a session for" |}) ];
            required := ["directory"] |} |};
    {| name := "get_context";
       description := "Retrieve context for a specific session and directory";
       inputSchema :=
         {| schema_type := "object";
            properties :=
              [ ("directory",
                 {| property_type := "string";
                    property_description := "The directory path" |});
                ("sessionId",
                 {| property_type := "string";
                    property_description := "The session ID" |}) ];
            required := ["directory"; "sessionId"] |} |};
    {| name := "update_context";
       description := "Update context for a specific session";
       inputSchema :=
         {| schema_type := "object";
            properties :=
              [ ("directory",
                 {| property_type := "string";
                    property_description := "The directory path" |});
                ("sessionId",
                 {| property_type := "string";
                    property_description := "The session ID" |});
                ("content",
                 {| property_type := "string";
                    property_description :=
                      "The content to add to the session history" |}) ];
            required := ["directory"; "sessionId"; "content"] |} |};
    {| name := "end_session";
       description := "End a session and remove its context";
       inputSchema :=
         {| schema_type := "object";
            properties :=
              [ ("directory",
                 {| property_type := "string";
                    property_description := "The directory path" |});
                ("sessionId",
                 {| property_type := "string";
                    property_description := "The session ID" |}) ];
            required := ["directory"; "sessionId"] |} |} ].

(** cleanup(): the adapter disconnects; closing the SDK server has no effect
    on the world of the embedding. *)
Definition cleanup : M unit := redisClient.disconnect.

End ClineMcpServer.

(** ** Sequences of registry operations *)

Inductive call :=
  | CreateSession (directory : string)
  | GetContext (directory sessionId : string)
  | UpdateContext (directory sessionId content : string)
  | EndSession (directory sessionId : string).

(** The world after one call; its answer (or exception) is dropped. *)
Definition run_call (E : Env) (c : call) (w : World) : World :=
  match c with
  | CreateSession d => snd (SessionManager.createSession E d w)
  | GetContext d s => snd (SessionManager.getContext E d s w)
  | UpdateContext d s c => snd (SessionManager.updateContext E d s c w)
  | EndSession d s => snd (SessionManager.endSession d s w)
  end.

Definition run_calls (E : Env) (cs : list call) (w : World) : World :=
  fold_left (λ w c, run_call E c w) cs w.

(** A process that has not yet connected, and an empty backend. *)
Definition initial_world : World :=
  {| redis := {| connected := false; data := ∅ |}; ticks := 0; draws := 0 |}.

(** ** Vocabulary of the statements *)

(** The record stored for the session (directory, sessionId), if any. *)
Definition stored (w : World) (directory sessionId : string)
  : option SessionContext :=
  data (redis w) !! SessionManager.getContextKey directory sessionId ≫= JSON.parse.

(** The world once the adapter has connected, with the backend content
    [db], [t] clock readings and [n] random draws consumed. *)
Definition connected_world (db : gmap string string) (t n : nat) : World :=
  {| redis := {| connected := true; data := db |}; ticks := t; draws := n |}.

(** The record [c] with [lastAccessed] replaced. *)
Definition touched (c : SessionContext) (accessed : string) : SessionContext :=
  {| directory := directory c;
     history := history c;
     metadata := {| createdAt := createdAt (metadata c);
                    lastAccessed := accessed |} |}.

(** The record [c] with one entry more and [lastAccessed] replaced. *)
Definition extended (c : SessionContext) (e : HistoryEntry) (accessed : string)
  : SessionContext :=
  {| directory := directory c;
     history := history c ++ [e];
     metadata := {| createdAt := createdAt (metadata c);
                    lastAccessed := accessed |} |}.

(** The exception of [updateContext] for a session that is not there. *)
Definition not_found (directory sessionId : string) : exn :=
  Error ("No context found for session " +:+ sessionId +:+
         " in directory " +:+ directory).

(** The n-th reading of the clock, as [toISOString] renders it. *)
Definition stamp (E : Env) (n : nat) : string := IsoDate.toISOString (clock E n).

(** The session id made of the i-th draw, and the one that the next
    [createSession] will draw. *)
Definition sessionId_of (E : Env) (i : nat) : string :=
  Hex.hex_bytes (Hex.be_bytes 16 (entropy E i)).

Definition next_sessionId (E : Env) (w : World) : string :=
  sessionId_of E (draws w).

(** Worlds that the registry builds from the initial one. *)
Definition reachable (E : Env) (w : World) : Prop :=
  ∃ cs, w = run_calls E cs initial_world.

(** Successive readings of the system clock do not go back. *)
Definition clock_monotone (E : Env) : Prop :=
  ∀ i j, i ≤ j → (clock E i ≤ clock E j)%Z.

(** Chronological order of two ISO-8601 timestamps: they render two
    instants, the first not after the second. *)
Definition iso_le (a b : string) : Prop :=
  ∃ ta tb, a = IsoDate.toISOString ta ∧ b = IsoDate.toISOString tb ∧ (ta ≤ tb)%Z.


(** The entries of [h] carry readings of the clock taken before the [t]-th,
    in the order in which they were taken. *)
Definition stamped_in_order (E : Env) (t : nat) (h : list HistoryEntry) : Prop :=
  ∀ i j e1 e2, i ≤ j → h !! i = Some e1 → h !! j = Some e2 →
    ∃ a b, a ≤ b ∧ b < t ∧ timestamp e1 = stamp E a ∧ timestamp e2 = stamp E b.

Definition ordered (E : Env) (w : World) : Prop :=
  ∀ d id c, stored w d id = Some c → stamped_in_order E (ticks w) (history c).

(** List order agrees with the order of the timestamps. *)
Definition chronological (h : list HistoryEntry) : Prop :=
  ∀ i j e1 e2, i ≤ j → h !! i = Some e1 → h !! j = Some e2 →
    iso_le (timestamp e1) (timestamp e2).

(** Every value of the store is a record as the registry writes it. *)
Definition well_formed (w : World) : Prop :=
  ∀ k v, data (redis w) !! k = Some v → ∃ c, v = JSON.stringify c.

(** The id drawn by a [createSession] is not in use: its key is absent. *)
Definition fresh_call (E : Env) (c : call) (w : World) : Prop :=
  match c with
  | CreateSession d =>
      data (redis w) !! SessionManager.getContextKey d (next_sessionId E w) = None
  | _ => True
  end.

Fixpoint fresh_calls (E : Env) (cs : list call) (w : World) : Prop :=
  match cs with
  | [] => True
  | c :: cs' => fresh_call E c w ∧ fresh_calls E cs' (run_call E c w)
  end.

(** The first [n] draws of 128 bits are pairwise different. *)
Definition draws_distinct (E : Env) (n : nat) : Prop :=
  ∀ i j, i < n → j < n →
    (entropy E i mod 2 ^ 128 = entropy E j mod 2 ^ 128)%N → i = j.

(** Every key of the store was made from one of the draws consumed. *)
Definition drawn (E : Env) (w : World) : Prop :=
  ∀ k v, data (redis w) !! k = Some v →
    ∃ d i, i < draws w ∧ k = SessionManager.getContextKey d (sessionId_of E i).

(** A sample environment: a clock that advances by a quarter of a second
    per reading, consecutive 128-bit draws, messages passed as they are. *)
Definition E0 : Env :=
  {| clock := λ n, (1700000000000 + 250 * Z.of_nat n)%Z;
     entropy := λ n, (0xa1b2c3d4e5f60718293a4b5c6d7e8f90 + N.of_nat n)%N;
     mcpMessage := λ _ m, m |}.

(** The world after [createSession "/proj"] in the sample environment, and
    the id of that session. *)
Definition w_proj : World := run_calls E0 [CreateSession "/proj"] initial_world.
Definition id_proj : string := "a1b2c3d4e5f60718293a4b5c6d7e8f90".
Definition c_proj : SessionContext :=
  {| directory := "/proj"; history := [];
     metadata := {| createdAt := "2023-11-14T22:13:20.000Z";
                    lastAccessed := "2023-11-14T22:13:20.250Z" |} |}.

(** The entry that [updateContext "/proj" id_proj "hello"] appends in [w_proj]. *)
Definition e_proj : HistoryEntry :=
  {| timestamp := "2023-11-14T22:13:20.500Z"; content := "hello" |}.

(** The sample environment with a random generator that gives the same
    16 bytes at every draw. *)
Definition E_repeat : Env :=
  {| clock := clock E0;
     entropy := λ _, entropy E0 0;
     mcpMessage := mcpMessage E0 |}.

(** The entry that a later [updateContext "/proj" id_proj "again"] appends,
    at the seventh reading of the sample clock. *)
Definition e_again : HistoryEntry :=
  {| timestamp := "2023-11-14T22:13:21.500Z"; content := "again" |}.

(** A backend in which a key of the registry holds the empty string. *)
Definition w_empty : World :=
  {| redis := {| connected := true;
                 data := {[ SessionManager.getContextKey "/proj" "a1b2" := "" ]} |};
     ticks := 0; draws := 0 |}.

(** The four tools of the server. *)
Definition known_tool (name : string) : bool :=
  String.eqb name "create_session" || String.eqb name "get_context"
  || String.eqb name "update_context" || String.eqb name "end_session".

(** [args] passes the first test of the handler: a truthy object. *)
Definition object_arguments (args : ClineMcpServer.jsval) : bool :=
  ClineMcpServer.truthy args && String.eqb (ClineMcpServer.typeof args) "object".

(** The key that a call addresses. *)
Definition call_key (E : Env) (c : call) (w : World) : string :=
  match c with
  | CreateSession d => SessionManager.getContextKey d (next_sessionId E w)
  | GetContext d id => SessionManager.getContextKey d id
  | UpdateContext d id _ => SessionManager.getContextKey d id
  | EndSession d id => SessionManager.getContextKey d id
  end.

(** Lowercase hexadecimal digits, and the strings made of them. *)
Definition is_hex (c : ascii) : bool :=
  let n := N_of_ascii c in
  ((48 <=? n) && (n <=? 57) || (97 <=? n) && (n <=? 102))%N.

Definition all_hex (s : string) : bool := forallb is_hex (list_ascii_of_string s).

(** The tool of the list that bears a name, and whether an arguments object
    gives a string for every field that the schema of a tool requires. *)
Definition find_tool (n : string) : option ClineMcpServer.Tool :=
  List.find (λ t, String.eqb (ClineMcpServer.name t) n) ClineMcpServer.tools.

Definition required_strings (t : ClineMcpServer.Tool) (args : ClineMcpServer.jsval)
  : bool :=
  forallb (λ f, bool_decide (is_Some (ClineMcpServer.string_param f args)))
          (ClineMcpServer.required (ClineMcpServer.inputSchema t)).

(** Every stored session was created, then last accessed, at two readings
    of the clock in that order, and each entry of its history was stamped
    at a reading between the two. *)
Definition accessed_last (E : Env) (w : World) : Prop :=
  ∀ d id c, stored w d id = Some c →
    ∃ a l, a ≤ l ∧ l < ticks w
      ∧ createdAt (metadata c) = stamp E a
      ∧ lastAccessed (metadata c) = stamp E l
      ∧ ∀ e, e ∈ history c → ∃ t, a ≤ t ∧ t ≤ l ∧ timestamp e = stamp E t.

(** An arguments object with these string fields. *)
Definition arguments (fields : list (string * string)) : ClineMcpServer.jsval :=
  ClineMcpServer.JObject (map (λ kv, (kv.1, ClineMcpServer.JString kv.2)) fields).

(** Two directories whose SHA-256 digests start with the same 8 hex
    characters (4dd25b94). *)
Definition dir_a : string := "/srv/app8749".
Definition dir_b : string := "/srv/app76504".

(** * Properties *)

Import SessionManager.

(** ** Strings *)

#[local] Arguments String.append !_ _ / : simpl nomatch.

Example sha256_abc :
  Sha256.sha256_hex "abc"
  = "ba7816bf8f01cfea414140de5dae2223b00361a396177a9cb410ff61f20015ad".
Proof. vm_compute. reflexivity. Qed.

Example sha256_two_blocks :
  Sha256.sha256_hex
    "The quick brown fox jumps over the lazy dog, and then jumps back again over it."
  = "a0a088b08b0ef197bee2f9a988702e9bd716a59d973ebf0b3573bc7824f4406a".
Proof. vm_compute. reflexivity. Qed.

(** Messages of 55, 56 and 64 bytes: the padding fills one block, or opens a
    second one. *)
Example sha256_padding :
  map (λ n, Sha256.sha256_hex (string_of_list_ascii (replicate n "a"%char)))
      [55; 56; 64]
  = [ "9f4390f8d30c2dd92ec9f095b65e2b9ae9b0a925a5258e241c9f1e910f734318";
      "b35439a4ac6f0948b6d6f9e3c6af0f5f590ce20f1bde7090ef7970686ec6738a";
      "ffe054fe7ae0cb6dc65c3af9b61d5209f439851db43d0ba5997337df154668eb" ].
Proof. vm_compute. reflexivity. Qed.

Example toISOString_leap_day :
  IsoDate.toISOString 1709210096789 = "2024-02-29T12:34:56.789Z".
Proof. vm_compute. reflexivity. Qed.

Example getContextKey_proj :
  getContextKey "/proj" "a1b2" = "cline:context:79903f0c:a1b2".
Proof. vm_compute. reflexivity. Qed.

Lemma append_assoc (a b c : string) : (a +:+ b) +:+ c = a +:+ (b +:+ c).
Proof. induction a as [|x a IH]; simpl; [reflexivity | now rewrite IH]. Qed.

Lemma length_append (a b : string) :
  String.length (a +:+ b) = String.length a + String.length b.
Proof. induction a as [|x a IH]; simpl; [reflexivity | now rewrite IH]. Qed.

Lemma append_cancel_r (a b t : string) : a +:+ t = b +:+ t → a = b.
Proof.
  revert b. induction a as [|x a IH]; intros [|y b] H; simpl in *.
  - reflexivity.
  - apply (f_equal String.length) in H. simpl in H.
    rewrite length_append in H. lia.
  - apply (f_equal String.length) in H. simpl in H.
    rewrite length_append in H. lia.
  - injection H as -> H. f_equal. now apply IH.
Qed.

Lemma append_inj_length (a b ra rb : string) :
  String.length a = String.length b → a +:+ ra = b +:+ rb → a = b ∧ ra = rb.
Proof.
  revert b. induction a as [|x a IH]; intros [|y b] Hlen H; try discriminate Hlen.
  - now split.
  - cbn [String.append] in H. injection H as -> H. injection Hlen as Hlen.
    destruct (IH b Hlen H) as [-> ->]. now split.
Qed.

(** ** Hexadecimal: a rendering identifies its bytes *)

Module Hex_facts.

Lemma hex_digit_inj (n m : N) :
  (n < 16)%N → (m < 16)%N → Hex.hex_digit n = Hex.hex_digit m → n = m.
Proof.
  intros Hn Hm H.
  assert (Hv : ∀ k, (k < 16)%N → JSON.hex_value (Hex.hex_digit k) = Some k).
  { intros k Hk.
    assert (k = 0 ∨ k = 1 ∨ k = 2 ∨ k = 3 ∨ k = 4 ∨ k = 5 ∨ k = 6 ∨ k = 7 ∨ k = 8
            ∨ k = 9 ∨ k = 10 ∨ k = 11 ∨ k = 12 ∨ k = 13 ∨ k = 14 ∨ k = 15)%N
      as Hc by lia.
    repeat (destruct Hc as [->|Hc]; [reflexivity|]). now subst. }
  apply Hv in Hn, Hm. rewrite H in Hn. congruence.
Qed.

Lemma hex_byte_inj (a b : N) (ra rb : string) :
  (a < 256)%N → (b < 256)%N →
  Hex.hex_byte a ra = Hex.hex_byte b rb → a = b ∧ ra = rb.
Proof.
  unfold Hex.hex_byte. intros Ha Hb [= H1 H2 H3].
  apply hex_digit_inj in H1, H2; try (apply N.mod_lt; lia).
  split; [|exact H3].
  rewrite (N.div_mod a 16), (N.div_mod b 16) by lia.
  rewrite (N.mod_small (a / 16) 16) in H1 by (apply N.Div0.div_lt_upper_bound; lia).
  rewrite (N.mod_small (b / 16) 16) in H1 by (apply N.Div0.div_lt_upper_bound; lia).
  congruence.
Qed.

Lemma be_bytes_lt (n : nat) (x : N) : Forall (λ b, (b < 256)%N) (Hex.be_bytes n x).
Proof.
  induction n as [|n IH]; cbn [Hex.be_bytes]; constructor; [|exact IH].
  apply N.mod_lt. lia.
Qed.

Lemma hex_bytes_inj (l1 l2 : list N) :
  Forall (λ b, (b < 256)%N) l1 → Forall (λ b, (b < 256)%N) l2 →
  length l1 = length l2 →
  Hex.hex_bytes l1 = Hex.hex_bytes l2 → l1 = l2.
Proof.
  intros H1. revert l2. induction H1 as [|a l1 Ha _ IH]; intros l2 H2 Hlen H.
  - destruct l2; [reflexivity|discriminate Hlen].
  - destruct H2 as [|b l2 Hb H2]; [discriminate Hlen|].
    cbn [Hex.hex_bytes] in H. apply hex_byte_inj in H as [-> H]; [|assumption..].
    f_equal. apply IH; [assumption| |assumption]. now injection Hlen.
Qed.

Lemma be_bytes_length (n : nat) (x : N) : length (Hex.be_bytes n x) = n.
Proof. induction n as [|n IH]; cbn [Hex.be_bytes length]; [reflexivity|now rewrite IH]. Qed.

Lemma be_bytes_inj (n : nat) (x y : N) :
  Hex.be_bytes n x = Hex.be_bytes n y →
  (x mod 256 ^ N.of_nat n = y mod 256 ^ N.of_nat n)%N.
Proof.
  induction n as [|n IH]; [intros _; now rewrite !N.mod_1_r|].
  cbn [Hex.be_bytes]. intros [= Hb Hr]. apply IH in Hr.
  rewrite Nat2N.inj_succ, N.pow_succ_r', (N.mul_comm 256).
  rewrite !N.Div0.mod_mul_r. congruence.
Qed.

End Hex_facts.

(** ** Timestamps: a rendering identifies its instant *)

Module IsoDate_facts.
Import IsoDate.
Local Open Scope Z_scope.

Lemma civil_from_days_spec (z : Z) :
  ∃ y m d, civil_from_days z = (y, m, d)
    ∧ days_from_civil y m d = z
    ∧ 1 <= m <= 12 ∧ 1 <= d <= 31
    ∧ (z + 719468) / 146097 * 400 <= y <= (z + 719468) / 146097 * 400 + 400.
Proof.
  unfold civil_from_days.
  set (era := (z + 719468) / 146097).
  set (doe := z + 719468 - era * 146097).
  assert (Hdoe : 0 <= doe < 146097) by (subst doe era; Z.div_mod_to_equations; lia).
  set (yoe := (doe - doe / 1460 + doe / 36524 - doe / 146096) / 365).
  assert (Hyoe : 0 <= yoe <= 399) by (subst yoe; Z.div_mod_to_equations; lia).
  set (doy := doe - (365 * yoe + yoe / 4 - yoe / 100)).
  assert (Hdoy : 0 <= doy <= 365) by (subst doy yoe; Z.div_mod_to_equations; lia).
  set (mp := (5 * doy + 2) / 153).
  assert (Hmp : 0 <= mp <= 11) by (subst mp; Z.div_mod_to_equations; lia).
  set (d := doy - (153 * mp + 2) / 5 + 1).
  assert (Hd : 1 <= d <= 31) by (subst d mp; Z.div_mod_to_equations; lia).
  cbv zeta. eexists _, _, _. split; [reflexivity|].
  assert (Hdoe' : doe = yoe * 365 + yoe / 4 - yoe / 100 + doy) by (subst doy; lia).
  assert (Hz : z = era * 146097 + doe - 719468) by (subst doe; lia).
  assert (Hdd : d = doy - (153 * mp + 2) / 5 + 1) by reflexivity.
  clearbody d. clearbody mp. clearbody doy. clearbody yoe. clearbody doe. clearbody era.
  unfold days_from_civil.
  destruct (Z.ltb_spec mp 10).
  - destruct (Z.leb_spec (mp + 3) 2); [lia|].
    replace ((yoe + era * 400 + 0) / 400) with era by (Z.div_mod_to_equations; lia).
    replace (mp + 3 - 3) with mp by lia.
    replace (yoe + era * 400 + 0 - era * 400) with yoe by lia.
    repeat split; lia.
  - destruct (Z.leb_spec (mp - 9) 2); [|lia].
    replace ((yoe + era * 400 + 1 - 1) / 400) with era by (Z.div_mod_to_equations; lia).
    replace (mp - 9 + 9) with mp by lia.
    replace (yoe + era * 400 + 1 - 1 - era * 400) with yoe by lia.
    repeat split; lia.
Qed.

Lemma digit_inj (a b : Z) : digit a = digit b → a mod 10 = b mod 10.
Proof.
  unfold digit. intros H. apply (f_equal N_of_ascii) in H.
  rewrite !N_ascii_embedding in H by (Z.div_mod_to_equations; lia).
  Z.div_mod_to_equations; lia.
Qed.

Lemma pad2_inj (a b : Z) (ra rb : string) :
  0 <= a < 100 → 0 <= b < 100 → pad2 a +:+ ra = pad2 b +:+ rb → a = b ∧ ra = rb.
Proof.
  unfold pad2. cbn [String.append]. intros Ha Hb H.
  injection H as H1%digit_inj H2%digit_inj H3. split; [|exact H3].
  Z.div_mod_to_equations; lia.
Qed.

Lemma pad3_inj (a b : Z) (ra rb : string) :
  0 <= a < 1000 → 0 <= b < 1000 → pad3 a +:+ ra = pad3 b +:+ rb → a = b ∧ ra = rb.
Proof.
  unfold pad3, pad2. cbn [String.append]. intros Ha Hb H.
  injection H as H1%digit_inj H2%digit_inj H3%digit_inj H4. split; [|exact H4].
  Z.div_mod_to_equations; lia.
Qed.

Lemma pad4_inj (a b : Z) (ra rb : string) :
  0 <= a < 10000 → 0 <= b < 10000 → pad4 a +:+ ra = pad4 b +:+ rb → a = b ∧ ra = rb.
Proof.
  unfold pad4, pad3, pad2. cbn [String.append]. intros Ha Hb H.
  injection H as H0%digit_inj H1%digit_inj H2%digit_inj H3%digit_inj H4.
  split; [|exact H4]. Z.div_mod_to_equations; lia.
Qed.

Lemma pad6_inj (a b : Z) (ra rb : string) :
  0 <= a < 1000000 → 0 <= b < 1000000 →
  pad6 a +:+ ra = pad6 b +:+ rb → a = b ∧ ra = rb.
Proof.
  unfold pad6, pad4, pad3, pad2. cbn [String.append]. intros Ha Hb H.
  injection H as H0%digit_inj H1%digit_inj H2%digit_inj H3%digit_inj
                 H4%digit_inj H5%digit_inj H6.
  split; [|exact H6]. Z.div_mod_to_equations; lia.
Qed.

Lemma String_tail (c1 c2 : ascii) (s1 s2 : string) :
  String c1 s1 = String c2 s2 → s1 = s2.
Proof. now intros [= _ ?]. Qed.

Lemma year_inj (a b : Z) (ra rb : string) :
  -1000000 < a < 1000000 → -1000000 < b < 1000000 →
  String.length ra = String.length rb →
  year a +:+ ra = year b +:+ rb → a = b ∧ ra = rb.
Proof.
  intros Ha Hb Hlen. unfold year.
  destruct (Z.leb_spec 0 a), (Z.leb_spec a 9999), (Z.leb_spec 0 b),
    (Z.leb_spec b 9999); cbn [andb]; try lia;
    try (apply pad4_inj; lia);
    try (intros Heq; apply (f_equal String.length) in Heq; revert Heq;
         destruct (a <? 0), (b <? 0); cbn; lia).
  all: destruct (Z.ltb_spec a 0), (Z.ltb_spec b 0); try lia;
    cbn [String.append]; intros Heq;
    first [ discriminate Heq
          | apply String_tail, pad6_inj in Heq as [Heq ?];
            [split; [lia | assumption] | lia..] ].
Qed.

(** On the time values of a Date, [toISOString] is one-to-one: a timestamp
    renders one instant. *)
Lemma toISOString_inj (a b : Z) :
  valid_time a → valid_time b → toISOString a = toISOString b → a = b.
Proof.
  unfold valid_time, toISOString, msPerDay. intros Ha Hb.
  destruct (civil_from_days_spec (a / 86400000)) as (ya & ma & da & -> & Hda & Hma & Hdda & Hya).
  destruct (civil_from_days_spec (b / 86400000)) as (yb & mb & db & -> & Hdb & Hmb & Hddb & Hyb).
  intros H.
  apply year_inj in H as [-> H];
    [| Z.div_mod_to_equations; lia | Z.div_mod_to_equations; lia | reflexivity].
  cbn [String.append] in H. apply String_tail in H.
  apply pad2_inj in H as [-> H]; [|lia..].
  cbn [String.append] in H. apply String_tail in H.
  apply pad2_inj in H as [-> H]; [|lia..].
  cbn [String.append] in H. apply String_tail in H.
  apply pad2_inj in H as [Hh H]; [|Z.div_mod_to_equations; lia..].
  cbn [String.append] in H. apply String_tail in H.
  apply pad2_inj in H as [Hm H]; [|Z.div_mod_to_equations; lia..].
  cbn [String.append] in H. apply String_tail in H.
  apply pad2_inj in H as [Hs H]; [|Z.div_mod_to_equations; lia..].
  cbn [String.append] in H. apply String_tail in H.
  apply pad3_inj in H as [Hms _]; [|Z.div_mod_to_equations; lia..].
  assert (Hd : a / 86400000 = b / 86400000) by congruence.
  clear Hda Hdb Hya Hyb.
  Z.div_mod_to_equations; lia.
Qed.

End IsoDate_facts.

(** ** The JSON codec: reading back what was written *)

Module JSON_facts.
Import JSON.

Lemma expect_append (lit rest : string) : expect lit (lit +:+ rest) = Some rest.
Proof.
  induction lit as [|a lit IH]; simpl; [now destruct rest|].
  now rewrite Ascii.eqb_refl.
Qed.

Lemma unquote_escape (c : ascii) (rest : string) :
  unquote_body (escape c +:+ rest) =
  '(r, rest') ← unquote_body rest; Some (String c r, rest').
Proof. destruct c as [[] [] [] [] [] [] [] []]; reflexivity. Qed.

Lemma unquote_quote_body (s rest : string) :
  unquote_body (quote_body s +:+ String dquote rest) = Some (s, rest).
Proof.
  induction s as [|c s IH]; [reflexivity|].
  cbn [quote_body]. rewrite append_assoc, unquote_escape, IH. reflexivity.
Qed.

Lemma quote_append (s rest : string) :
  quote s +:+ rest = String dquote (quote_body s +:+ String dquote rest).
Proof. unfold quote. simpl. now rewrite append_assoc. Qed.

Lemma parse_string_quote (s rest : string) :
  parse_string (quote s +:+ rest) = Some (s, rest).
Proof.
  rewrite quote_append. unfold parse_string. simpl.
  apply unquote_quote_body.
Qed.

Lemma parse_member_key (k v rest : string) :
  parse_member k (key k +:+ quote v +:+ rest) = Some (v, rest).
Proof.
  unfold parse_member. rewrite expect_append. cbn [mbind option_bind].
  apply parse_string_quote.
Qed.

Ltac step_parse :=
  repeat first
    [ rewrite expect_append
    | rewrite parse_member_key
    | progress cbn [mbind option_bind] ].

Lemma parse_entry_stringify (e : HistoryEntry) (rest : string) :
  parse_entry (stringify_entry e +:+ rest) = Some (e, rest).
Proof.
  unfold stringify_entry, parse_entry. rewrite !append_assoc.
  step_parse. now destruct e.
Qed.

Lemma parse_metadata_stringify (m : Metadata) (rest : string) :
  parse_metadata (stringify_metadata m +:+ rest) = Some (m, rest).
Proof.
  unfold stringify_metadata, parse_metadata. rewrite !append_assoc.
  step_parse. now destruct m.
Qed.

Lemma stringify_entry_head (e : HistoryEntry) :
  ∃ t, stringify_entry e = String "{" t.
Proof. unfold stringify_entry. simpl. eauto. Qed.

Lemma stringify_entries_cons (e e' : HistoryEntry) (h : list HistoryEntry) :
  stringify_entries (e :: e' :: h)
  = stringify_entry e +:+ "," +:+ stringify_entries (e' :: h).
Proof. reflexivity. Qed.

Lemma stringify_entries_head (e : HistoryEntry) (h : list HistoryEntry) :
  ∃ t, stringify_entries (e :: h) = String "{" t.
Proof.
  destruct (stringify_entry_head e) as [t Ht].
  destruct h as [|e' h]; [|rewrite stringify_entries_cons];
    cbn [stringify_entries]; rewrite Ht; simpl; eauto.
Qed.

Lemma stringify_entries_length (h : list HistoryEntry) :
  length h ≤ String.length (stringify_entries h).
Proof.
  induction h as [|e h IH]; [simpl; lia|].
  destruct (stringify_entry_head e) as [t Ht].
  destruct h as [|e' h].
  - cbn [stringify_entries]. rewrite Ht. simpl. lia.
  - rewrite stringify_entries_cons, Ht, !length_append.
    revert IH. generalize (stringify_entries (e' :: h)), (e' :: h).
    intros s l IH. simpl. lia.
Qed.

Lemma parse_entries_stringify (h : list HistoryEntry) :
  ∀ (e : HistoryEntry) (rest : string) (fuel : nat),
    length h < fuel →
    parse_entries fuel (stringify_entries (e :: h) +:+ "]" +:+ rest)
    = Some (e :: h, rest).
Proof.
  induction h as [|e' h IH]; intros e rest [|fuel] Hfuel; try (simpl in Hfuel; lia).
  - cbn [stringify_entries parse_entries].
    rewrite parse_entry_stringify. reflexivity.
  - rewrite stringify_entries_cons. cbn [parse_entries]. rewrite !append_assoc.
    rewrite parse_entry_stringify. cbn [mbind option_bind].
    change ("," +:+ ?x) with (String "," x).
    cbn [Ascii.eqb Bool.eqb]. rewrite IH by (simpl in Hfuel; lia).
    reflexivity.
Qed.

Lemma parse_history_stringify (h : list HistoryEntry) (rest : string) :
  parse_history ("[" +:+ stringify_entries h +:+ "]" +:+ rest) = Some (h, rest).
Proof.
  unfold parse_history. rewrite expect_append. cbn [mbind option_bind].
  destruct h as [|e h]; [reflexivity|].
  pose proof (parse_entries_stringify h e rest) as Hp.
  pose proof (stringify_entries_length (e :: h)) as Hl.
  destruct (stringify_entries_head e h) as [t Ht].
  revert Hp Hl. rewrite Ht. intros Hp Hl. simpl String.append at 1.
  cbn [Ascii.eqb Bool.eqb]. apply Hp.
  rewrite length_append. change (length (e :: h)) with (S (length h)) in Hl.
  lia.
Qed.

(** What [stringify] writes, [parse] reads back. *)
Lemma parse_stringify (c : SessionContext) : parse (stringify c) = Some c.
Proof.
  unfold stringify, parse. step_parse.
  rewrite <- append_assoc, expect_append. cbn [mbind option_bind].
  rewrite parse_history_stringify. cbn [mbind option_bind].
  rewrite <- append_assoc, expect_append. cbn [mbind option_bind].
  rewrite parse_metadata_stringify. cbn [mbind option_bind].
  simpl. now destruct c.
Qed.

Lemma stringify_not_empty (c : SessionContext) : stringify c ≠ "".
Proof. unfold stringify. simpl. discriminate. Qed.

Lemma parse_empty : parse "" = None.
Proof. reflexivity. Qed.

End JSON_facts.

(** ** The four operations, run in any world *)

Section Registry.
Variable E : Env.

Ltac run w :=
  destruct w as [[[] db] t n];
  unfold createSession, getContext, updateContext, endSession, generateSessionId,
    JSON_parse, redisClient.set, redisClient.get, redisClient.delete,
    redisClient.connect, redisClient.with_redis, new_Date_toISOString,
    randomBytes16, bind, ret, throw, connected_world, stored, next_sessionId,
    stamp in *;
  cbn [redis data connected ticks draws negb fst snd] in *.

Lemma createSession_run (d : string) (w : World) :
  let id := next_sessionId E w in
  createSession E d w =
  (Ok id,
   connected_world
     (<[getContextKey d id :=
          JSON.stringify {| directory := d; history := [];
                            metadata := {| createdAt := stamp E (ticks w);
                                           lastAccessed := stamp E (S (ticks w)) |} |}]>
        (data (redis w)))
     (S (S (ticks w))) (S (draws w))).
Proof. run w; reflexivity. Qed.

Lemma stored_lookup (w : World) (d id : string) (c : SessionContext) :
  stored w d id = Some c →
  ∃ v, data (redis w) !! getContextKey d id = Some v
       ∧ JSON.parse v = Some c ∧ falsy (Some v) = false.
Proof.
  unfold stored. destruct (data (redis w) !! getContextKey d id) as [v|]; [|discriminate].
  cbn [mbind option_bind]. intros Hv. exists v. repeat split; [assumption|].
  destruct v; [discriminate Hv | reflexivity].
Qed.

Lemma getContext_absent (d id : string) (w : World) :
  falsy (data (redis w) !! getContextKey d id) = true →
  getContext E d id w = (Ok None, connected_world (data (redis w)) (ticks w) (draws w)).
Proof. run w; intros ->; reflexivity. Qed.

Lemma getContext_present (d id : string) (w : World) (c : SessionContext) :
  stored w d id = Some c →
  let c' := touched c (stamp E (ticks w)) in
  getContext E d id w =
  (Ok (Some c'),
   connected_world (<[getContextKey d id := JSON.stringify c']> (data (redis w)))
                   (S (ticks w)) (draws w)).
Proof.
  intros (v & Hv & Hp & Hf)%stored_lookup.
  run w; rewrite Hv, Hf; cbn [mbind option_bind]; rewrite Hp; reflexivity.
Qed.

Lemma getContext_bad (d id : string) (w : World) (v : string) :
  data (redis w) !! getContextKey d id = Some v →
  falsy (Some v) = false → JSON.parse v = None →
  getContext E d id w =
  (Throw BadRecord, connected_world (data (redis w)) (ticks w) (draws w)).
Proof.
  intros Hv Hf Hp.
  run w; rewrite Hv, Hf; cbn [mbind option_bind]; rewrite Hp; reflexivity.
Qed.

Lemma updateContext_absent (d id content : string) (w : World) :
  falsy (data (redis w) !! getContextKey d id) = true →
  updateContext E d id content w =
  (Throw (not_found d id), connected_world (data (redis w)) (ticks w) (draws w)).
Proof. run w; intros ->; reflexivity. Qed.

Lemma updateContext_present (d id content : string) (w : World) (c : SessionContext) :
  stored w d id = Some c →
  let c' := extended c {| timestamp := stamp E (ticks w); content := content |}
                     (stamp E (S (ticks w))) in
  updateContext E d id content w =
  (Ok tt,
   connected_world (<[getContextKey d id := JSON.stringify c']> (data (redis w)))
                   (S (S (ticks w))) (draws w)).
Proof.
  intros (v & Hv & Hp & Hf)%stored_lookup.
  run w; rewrite Hv, Hf; cbn [mbind option_bind]; rewrite Hp; reflexivity.
Qed.

Lemma updateContext_bad (d id content : string) (w : World) (v : string) :
  data (redis w) !! getContextKey d id = Some v →
  falsy (Some v) = false → JSON.parse v = None →
  updateContext E d id content w =
  (Throw BadRecord, connected_world (data (redis w)) (ticks w) (draws w)).
Proof.
  intros Hv Hf Hp.
  run w; rewrite Hv, Hf; cbn [mbind option_bind]; rewrite Hp; reflexivity.
Qed.

Lemma endSession_run (d id : string) (w : World) :
  endSession d id w =
  (Ok tt, connected_world (delete (getContextKey d id) (data (redis w)))
                          (ticks w) (draws w)).
Proof. run w; reflexivity. Qed.

(** Reading back the key that was just written. *)
Lemma stored_insert (db : gmap string string) (t n : nat) (d id : string)
    (c : SessionContext) :
  stored (connected_world (<[getContextKey d id := JSON.stringify c]> db) t n) d id
  = Some c.
Proof.
  unfold stored, connected_world. cbn [redis data].
  rewrite lookup_insert_eq. cbn [mbind option_bind].
  apply JSON_facts.parse_stringify.
Qed.

End Registry.

(** ** Storage keys *)

Section Keys.

Lemma hashDirectory_length (d : string) : String.length (hashDirectory d) = 8.
Proof. reflexivity. Qed.

(** A session id is 32 characters long: 16 bytes in hexadecimal. *)
Lemma next_sessionId_length (E : Env) (w : World) :
  String.length (next_sessionId E w) = 32.
Proof. reflexivity. Qed.

(** C4: the storage key of (d, s) is "cline:context:", the first 8 hex
    characters of SHA-256(d), ":" and s; it is computed from d and s alone,
    and it is the key at which every operation addresses the store, whatever
    the world and the environment. *)
Theorem C4_storage_key (d s : string) :
  getContextKey d s
  = "cline:context:" +:+ String.substring 0 8 (Sha256.sha256_hex d) +:+ ":" +:+ s
  ∧ String.length (String.substring 0 8 (Sha256.sha256_hex d)) = 8
  ∧ (∀ w, data (redis (snd (endSession d s w)))
          = delete (getContextKey d s) (data (redis w)))
  ∧ (∀ E w, dom (data (redis (snd (createSession E d w))))
            = {[ getContextKey d (next_sessionId E w) ]} ∪ dom (data (redis w))).
Proof.
  split; [reflexivity|]. split; [apply hashDirectory_length|]. split.
  - intros w. now rewrite endSession_run.
  - intros E w. rewrite createSession_run.
    cbn [snd connected_world redis data]. apply dom_insert_L.
Qed.

Lemma getContextKey_inj_id (d1 d2 id1 id2 : string) :
  getContextKey d1 id1 = getContextKey d2 id2 → id1 = id2.
Proof.
  unfold getContextKey. intros H.
  apply (inj (String.append CONTEXT_PREFIX)) in H.
  apply append_inj_length in H as [_ H]; [|reflexivity].
  now injection H.
Qed.

(** C9: two directories whose 8-character hashes differ get different
    storage keys for one and the same session id. *)
Theorem C9_distinct_hash_distinct_key (d1 d2 s : string) :
  d1 ≠ d2 → hashDirectory d1 ≠ hashDirectory d2 →
  getContextKey d1 s ≠ getContextKey d2 s.
Proof.
  intros _ Hh Hk. apply Hh. unfold getContextKey in Hk.
  apply (inj (String.append CONTEXT_PREFIX)) in Hk.
  now apply append_cancel_r in Hk.
Qed.

Lemma C9_distinct_hash_distinct_key_witness :
  "/proj" ≠ "/other"
  ∧ hashDirectory "/proj" ≠ hashDirectory "/other"
  ∧ getContextKey "/proj" "a1b2" ≠ getContextKey "/other" "a1b2".
Proof.
  assert (H1 : "/proj" ≠ "/other") by discriminate.
  assert (H2 : hashDirectory "/proj" ≠ hashDirectory "/other")
    by (vm_compute; discriminate).
  split; [exact H1|]. split; [exact H2|].
  exact (C9_distinct_hash_distinct_key "/proj" "/other" "a1b2" H1 H2).
Defined.

End Keys.

(** ** What one call does to the store *)

Section Effects.
Variable E : Env.

Lemma stored_data (w w' : World) (d id : string) :
  data (redis w') = data (redis w) → stored w' d id = stored w d id.
Proof. unfold stored. now intros ->. Qed.

Lemma stored_write (w w' : World) (k : string) (c : SessionContext) (d id : string) :
  data (redis w') = <[k := JSON.stringify c]> (data (redis w)) →
  stored w' d id = if decide (k = getContextKey d id) then Some c else stored w d id.
Proof.
  unfold stored. intros ->. rewrite lookup_insert. case_decide; [|reflexivity].
  cbn [mbind option_bind]. apply JSON_facts.parse_stringify.
Qed.

Lemma stored_delete (w w' : World) (k : string) (d id : string) :
  data (redis w') = delete k (data (redis w)) →
  stored w' d id = if decide (k = getContextKey d id) then None else stored w d id.
Proof.
  unfold stored. intros ->. rewrite lookup_delete. now case_decide.
Qed.

(** The outcome of a read: nothing usable, a record, or a foreign text. *)
Lemma lookup_cases (w : World) (d id : string) :
  falsy (data (redis w) !! getContextKey d id) = true
  ∨ (∃ c, stored w d id = Some c)
  ∨ (∃ v, data (redis w) !! getContextKey d id = Some v
          ∧ falsy (Some v) = false ∧ JSON.parse v = None).
Proof.
  unfold stored.
  destruct (data (redis w) !! getContextKey d id) as [v|]; [|now left].
  destruct (falsy (Some v)) eqn:Hf; [now left|]. right.
  cbn [mbind option_bind]. destruct (JSON.parse v) as [c|] eqn:Hp; eauto.
Qed.

(** One call leaves the content of the store as it is, or writes one record
    under one key, or deletes one key; the clock never runs back. *)
Lemma run_call_effect (c : call) (w : World) :
  let w' := run_call E c w in
  let t := ticks w in
  ticks w ≤ ticks w'
  ∧ (data (redis w') = data (redis w)
     ∨ (∃ d, c = CreateSession d
          ∧ ticks w' = S (S t)
          ∧ data (redis w')
            = <[getContextKey d (next_sessionId E w) :=
                  JSON.stringify
                    {| directory := d; history := [];
                       metadata := {| createdAt := stamp E t;
                                      lastAccessed := stamp E (S t) |} |}]>
                (data (redis w)))
     ∨ (∃ d id c0, c = GetContext d id
          ∧ stored w d id = Some c0
          ∧ data (redis w')
            = <[getContextKey d id := JSON.stringify (touched c0 (stamp E t))]>
                (data (redis w)))
     ∨ (∃ d id content c0, c = UpdateContext d id content
          ∧ stored w d id = Some c0
          ∧ data (redis w')
            = <[getContextKey d id :=
                  JSON.stringify
                    (extended c0 {| timestamp := stamp E t; content := content |}
                              (stamp E (S t)))]>
                (data (redis w)))
     ∨ (∃ d id, c = EndSession d id
          ∧ data (redis w') = delete (getContextKey d id) (data (redis w)))).
Proof.
  destruct c as [d|d id|d id content|d id]; cbn [run_call].
  - rewrite createSession_run. cbn [snd connected_world ticks redis data].
    split; [lia|]. right; left. exists d. auto.
  - destruct (lookup_cases w d id) as [Hf|[[c0 Hc]|(v & Hv & Hf & Hp)]].
    + rewrite (getContext_absent E _ _ _ Hf). cbn [snd connected_world ticks redis data].
      split; [lia|now left].
    + rewrite (getContext_present E _ _ _ _ Hc). cbn [snd connected_world ticks redis data].
      split; [lia|]. right; right; left. exists d, id, c0. auto.
    + rewrite (getContext_bad E _ _ _ _ Hv Hf Hp). cbn [snd connected_world ticks redis data].
      split; [lia|now left].
  - destruct (lookup_cases w d id) as [Hf|[[c0 Hc]|(v & Hv & Hf & Hp)]].
    + rewrite (updateContext_absent E _ _ _ _ Hf). cbn [snd connected_world ticks redis data].
      split; [lia|now left].
    + rewrite (updateContext_present E _ _ _ _ _ Hc).
      cbn [snd connected_world ticks redis data].
      split; [lia|]. right; right; right; left. exists d, id, content, c0. auto.
    + rewrite (updateContext_bad E _ _ _ _ _ Hv Hf Hp). cbn [snd connected_world ticks redis data].
      split; [lia|now left].
  - rewrite endSession_run. cbn [snd connected_world ticks redis data].
    split; [lia|]. right; right; right; right. exists d, id. auto.
Qed.





Lemma stamped_in_order_later (t t' : nat) (h : list HistoryEntry) :
  t ≤ t' → stamped_in_order E t h → stamped_in_order E t' h.
Proof.
  intros Ht Hh i j e1 e2 Hij H1 H2.
  destruct (Hh i j e1 e2 Hij H1 H2) as (a & b & ? & ? & ? & ?).
  exists a, b. repeat split; [lia..|done|done].
Qed.

Lemma stamped_in_order_snoc (t : nat) (h : list HistoryEntry) (content : string) :
  stamped_in_order E t h →
  stamped_in_order E (S (S t))
    (h ++ [ {| timestamp := stamp E t; content := content |} ]).
Proof.
  intros Hh i j e1 e2 Hij H1 H2.
  apply lookup_snoc_Some in H1 as [[Hi H1]|[-> <-]];
    apply lookup_snoc_Some in H2 as [[Hj H2]|[-> <-]]; try lia.
  - destruct (Hh i j e1 e2 Hij H1 H2) as (a & b & ? & ? & ? & ?).
    exists a, b. repeat split; [lia..|done|done].
  - destruct (Hh i i e1 e1 (le_n i) H1 H1) as (a & b & ? & ? & ? & ?).
    exists a, t. repeat split; [lia..|done].
  - exists t, t. repeat split; lia.
Qed.

Lemma ordered_initial : ordered E initial_world.
Proof. intros d id c. unfold stored. cbn. now rewrite lookup_empty. Qed.

Lemma ordered_run_call (c : call) (w : World) : ordered E w → ordered E (run_call E c w).
Proof.
  intros Hw d id c1.
  destruct (run_call_effect c w) as [Ht Heff]. cbv zeta in Heff.
  assert (Hold : ∀ c', stored w d id = Some c' →
            stamped_in_order E (ticks (run_call E c w)) (history c')).
  { intros c' Hc'. eapply stamped_in_order_later; [exact Ht|]. eapply Hw, Hc'. }
  destruct Heff as [Hd|[(d0 & -> & Ht' & Hd)|[(d0 & id0 & c0 & -> & Hc0 & Hd)
                   |[(d0 & id0 & content & c0 & -> & Hc0 & Hd)|(d0 & id0 & -> & Hd)]]]].
  - rewrite (stored_data _ _ _ _ Hd). apply Hold.
  - rewrite (stored_write _ _ _ _ _ _ Hd). case_decide; [|apply Hold].
    intros [= <-] i j e1 e2 _ H1. discriminate H1.
  - rewrite (stored_write _ _ _ _ _ _ Hd). case_decide as Hk; [|apply Hold].
    intros [= <-]. apply (Hold c0). unfold stored in *. now rewrite <- Hk.
  - rewrite (stored_write _ _ _ _ _ _ Hd). case_decide as Hk; [|apply Hold].
    intros [= <-]. cbn [history extended run_call].
    rewrite (updateContext_present E _ _ _ _ _ Hc0). cbn [snd connected_world ticks].
    apply stamped_in_order_snoc. eapply Hw, Hc0.
  - rewrite (stored_delete _ _ _ _ _ Hd). case_decide; [discriminate|apply Hold].
Qed.

Lemma ordered_run_calls (cs : list call) (w : World) :
  ordered E w → ordered E (run_calls E cs w).
Proof.
  revert w. induction cs as [|c cs IH]; intros w Hw; [exact Hw|].
  apply IH, ordered_run_call, Hw.
Qed.

Lemma ordered_reachable (w : World) : reachable E w → ordered E w.
Proof. intros [cs ->]. apply ordered_run_calls, ordered_initial. Qed.

Lemma well_formed_run_call (c : call) (w : World) :
  well_formed w → well_formed (run_call E c w).
Proof.
  intros Hw k v.
  destruct (run_call_effect c w) as [_ Heff]. cbv zeta in Heff.
  destruct Heff as [Hd|[(d0 & -> & Ht' & Hd)|[(d0 & id0 & c0 & -> & Hc0 & Hd)
                   |[(d0 & id0 & content & c0 & -> & Hc0 & Hd)|(d0 & id0 & -> & Hd)]]]];
    rewrite Hd; try apply Hw.
  1-3: rewrite lookup_insert; case_decide; [intros [= <-]; eauto | apply Hw].
  rewrite lookup_delete. case_decide; [discriminate | apply Hw].
Qed.

(** When only the registry writes the store, what it reads is a record:
    the [BadRecord] branch is never taken. *)
Lemma reachable_well_formed (w : World) : reachable E w → well_formed w.
Proof.
  intros [cs ->]. unfold run_calls.
  assert (H0 : well_formed initial_world)
    by (intros k v; cbn; now rewrite lookup_empty).
  revert H0. generalize initial_world.
  induction cs as [|c cs IH]; intros w Hw; [exact Hw|].
  apply IH, well_formed_run_call, Hw.
Qed.

Lemma reachable_no_BadRecord (w : World) (d id content : string) :
  reachable E w →
  fst (getContext E d id w) ≠ Throw BadRecord
  ∧ fst (updateContext E d id content w) ≠ Throw BadRecord.
Proof.
  intros Hw%reachable_well_formed.
  destruct (lookup_cases w d id) as [Hf|[[c0 Hc]|(v & Hv & Hf & Hp)]].
  - rewrite (getContext_absent E _ _ _ Hf), (updateContext_absent E _ _ _ _ Hf).
    split; discriminate.
  - rewrite (getContext_present E _ _ _ _ Hc), (updateContext_present E _ _ _ _ _ Hc).
    split; discriminate.
  - destruct (Hw _ _ Hv) as [c ->].
    rewrite JSON_facts.parse_stringify in Hp. discriminate Hp.
Qed.

Lemma reachable_run_calls (cs : list call) (w : World) :
  reachable E w → reachable E (run_calls E cs w).
Proof.
  intros [cs0 ->]. exists (cs0 ++ cs). unfold run_calls. now rewrite fold_left_app.
Qed.

Lemma sessionId_of_inj (n i j : nat) :
  draws_distinct E n → i < n → j < n →
  sessionId_of E i = sessionId_of E j → i = j.
Proof.
  intros HE Hi Hj H. apply HE; [assumption..|].
  apply Hex_facts.hex_bytes_inj in H;
    [|apply Hex_facts.be_bytes_lt..|now rewrite !Hex_facts.be_bytes_length].
  now apply Hex_facts.be_bytes_inj in H.
Qed.

Lemma draws_distinct_le (n m : nat) :
  m ≤ n → draws_distinct E n → draws_distinct E m.
Proof. intros Hmn HE i j Hi Hj. apply HE; lia. Qed.

Lemma run_call_draws (c : call) (w : World) :
  draws (run_call E c w)
  = match c with CreateSession _ => S (draws w) | _ => draws w end.
Proof.
  destruct c as [d|d id|d id content|d id]; cbn [run_call].
  - now rewrite createSession_run.
  - destruct (lookup_cases w d id) as [Hf|[[c0 Hc]|(v & Hv & Hf & Hp)]].
    + now rewrite (getContext_absent E _ _ _ Hf).
    + now rewrite (getContext_present E _ _ _ _ Hc).
    + now rewrite (getContext_bad E _ _ _ _ Hv Hf Hp).
  - destruct (lookup_cases w d id) as [Hf|[[c0 Hc]|(v & Hv & Hf & Hp)]].
    + now rewrite (updateContext_absent E _ _ _ _ Hf).
    + now rewrite (updateContext_present E _ _ _ _ _ Hc).
    + now rewrite (updateContext_bad E _ _ _ _ _ Hv Hf Hp).
  - now rewrite endSession_run.
Qed.

Lemma stored_is_Some (w : World) (d id : string) (c : SessionContext) :
  stored w d id = Some c → is_Some (data (redis w) !! getContextKey d id).
Proof. intros (v & Hv & _)%stored_lookup. eauto. Qed.

Lemma drawn_run_call (c : call) (w : World) : drawn E w → drawn E (run_call E c w).
Proof.
  intros Hw k v.
  pose proof (run_call_draws c w) as Hdraws.
  assert (Hold : ∀ v', data (redis w) !! k = Some v' →
            ∃ d i, i < draws (run_call E c w) ∧ k = getContextKey d (sessionId_of E i)).
  { intros v' Hv'. destruct (Hw _ _ Hv') as (d & i & Hi & ->). exists d, i.
    split; [|reflexivity]. rewrite Hdraws. destruct c; lia. }
  destruct (run_call_effect c w) as [_ Heff]. cbv zeta in Heff.
  destruct Heff as [Hd|[(d0 & -> & Ht' & Hd)|[(d0 & id0 & c0 & -> & Hc0 & Hd)
                   |[(d0 & id0 & content & c0 & -> & Hc0 & Hd)|(d0 & id0 & -> & Hd)]]]];
    rewrite Hd.
  - apply Hold.
  - rewrite lookup_insert. case_decide as Hk; [|apply Hold].
    intros _. exists d0, (draws w). split; [rewrite Hdraws; lia | now rewrite <- Hk].
  - rewrite lookup_insert. case_decide as Hk; [|apply Hold].
    intros _. destruct (stored_is_Some _ _ _ _ Hc0) as [v' Hv'].
    rewrite Hk in Hv'. eapply Hold, Hv'.
  - rewrite lookup_insert. case_decide as Hk; [|apply Hold].
    intros _. destruct (stored_is_Some _ _ _ _ Hc0) as [v' Hv'].
    rewrite Hk in Hv'. eapply Hold, Hv'.
  - rewrite lookup_delete. case_decide; [discriminate|apply Hold].
Qed.

Lemma drawn_reachable (w : World) : reachable E w → drawn E w.
Proof.
  intros [cs ->]. unfold run_calls.
  assert (H0 : drawn E initial_world)
    by (intros k v; cbn; now rewrite lookup_empty).
  revert H0. generalize initial_world.
  induction cs as [|c cs IH]; intros w Hw; [exact Hw|].
  apply IH, drawn_run_call, Hw.
Qed.

(** When the draws made so far and the next one are pairwise different,
    the id of a new session is not in use, in any world that the registry
    built. *)
Lemma fresh_call_reachable (c : call) (w : World) :
  draws_distinct E (S (draws w)) → reachable E w → fresh_call E c w.
Proof.
  intros HE Hw. destruct c as [d| | |]; cbn [fresh_call]; try exact I.
  destruct (data (redis w) !! getContextKey d (next_sessionId E w)) as [v|] eqn:Hv;
    [|reflexivity].
  destruct (drawn_reachable w Hw _ _ Hv) as (d' & i & Hi & Hk).
  apply getContextKey_inj_id in Hk. unfold next_sessionId in Hk.
  apply (sessionId_of_inj _ _ _ HE) in Hk; lia.
Qed.

Lemma fresh_calls_reachable (cs : list call) (w : World) :
  draws_distinct E (draws w + length cs) → reachable E w → fresh_calls E cs w.
Proof.
  revert w. induction cs as [|c cs IH]; intros w HE Hw; [exact I|].
  cbn [length] in HE. split.
  - apply fresh_call_reachable; [|exact Hw].
    eapply draws_distinct_le; [|exact HE]. lia.
  - apply IH.
    + eapply draws_distinct_le; [|exact HE]. rewrite run_call_draws.
      destruct c; lia.
    + change (run_call E c w) with (run_calls E [c] w).
      now apply reachable_run_calls.
Qed.

Lemma run_calls_snoc (cs : list call) (c : call) (w : World) :
  run_calls E (cs ++ [c]) w = run_call E c (run_calls E cs w).
Proof. unfold run_calls. now rewrite fold_left_app. Qed.

Lemma fresh_calls_snoc (cs : list call) (c : call) (w : World) :
  fresh_calls E (cs ++ [c]) w → fresh_call E c (run_calls E cs w).
Proof.
  revert w. induction cs as [|c' cs IH]; intros w; cbn [app fresh_calls].
  - now intros [H _].
  - intros [_ H]. now apply IH.
Qed.

(** One call keeps a stored history, or appends one entry to it (or deletes
    the record), when the id that [createSession] draws is not in use. *)
Lemma history_run_call (c : call) (w : World) (d id : string)
    (h h' : list HistoryEntry) :
  fresh_call E c w →
  history <$> stored w d id = Some h →
  history <$> stored (run_call E c w) d id = Some h' →
  h' = h ∨ ∃ e, h' = h ++ [e].
Proof.
  intros Hfresh Hh.
  destruct (run_call_effect c w) as [_ Heff]. cbv zeta in Heff.
  destruct Heff as [Hd|[(d0 & -> & Ht' & Hd)|[(d0 & id0 & c0 & -> & Hc0 & Hd)
                   |[(d0 & id0 & content & c0 & -> & Hc0 & Hd)|(d0 & id0 & -> & Hd)]]]].
  - rewrite (stored_data _ _ _ _ Hd), Hh. intros [= <-]. now left.
  - rewrite (stored_write _ _ _ _ _ _ Hd). case_decide as Hk.
    + cbn [fresh_call] in Hfresh. unfold stored in Hh.
      rewrite <- Hk, Hfresh in Hh. discriminate Hh.
    + rewrite Hh. intros [= <-]. now left.
  - rewrite (stored_write _ _ _ _ _ _ Hd). case_decide as Hk.
    + unfold stored in Hh, Hc0. rewrite <- Hk in Hh.
      cbn [fmap option_fmap option_map touched history].
      intros [= <-]. left.
      rewrite Hc0 in Hh. now injection Hh.
    + rewrite Hh. intros [= <-]. now left.
  - rewrite (stored_write _ _ _ _ _ _ Hd). case_decide as Hk.
    + unfold stored in Hh, Hc0. rewrite <- Hk in Hh.
      cbn [fmap option_fmap option_map extended history].
      intros [= <-]. right. eexists.
      rewrite Hc0 in Hh. injection Hh as <-. reflexivity.
    + rewrite Hh. intros [= <-]. now left.
  - rewrite (stored_delete _ _ _ _ _ Hd). case_decide as Hk; [discriminate|].
    rewrite Hh. intros [= <-]. now left.
Qed.

(** Without that premise there is one more case: a [createSession] that
    draws the id of the stored session, under the same key, puts a new
    record with an empty history in its place. *)
Lemma history_run_call_any (c : call) (w : World) (d id : string)
    (h h' : list HistoryEntry) :
  history <$> stored w d id = Some h →
  history <$> stored (run_call E c w) d id = Some h' →
  h' = h ∨ (∃ e, h' = h ++ [e])
  ∨ (∃ d', c = CreateSession d'
       ∧ getContextKey d' (next_sessionId E w) = getContextKey d id
       ∧ h' = []).
Proof.
  intros Hh.
  destruct (run_call_effect c w) as [_ Heff]. cbv zeta in Heff.
  destruct Heff as [Hd|[(d0 & -> & Ht' & Hd)|[(d0 & id0 & c0 & -> & Hc0 & Hd)
                   |[(d0 & id0 & content & c0 & -> & Hc0 & Hd)|(d0 & id0 & -> & Hd)]]]].
  - rewrite (stored_data _ _ _ _ Hd), Hh. intros [= <-]. now left.
  - rewrite (stored_write _ _ _ _ _ _ Hd). case_decide as Hk.
    + cbn [fmap option_fmap option_map history]. intros [= <-].
      right. right. now exists d0.
    + rewrite Hh. intros [= <-]. now left.
  - intros Hh'.
    destruct (history_run_call (GetContext d0 id0) w d id h h' I Hh Hh') as [?|?]; auto.
  - intros Hh'.
    destruct (history_run_call (UpdateContext d0 id0 content) w d id h h' I Hh Hh')
      as [?|?]; auto.
  - intros Hh'.
    destruct (history_run_call (EndSession d0 id0) w d id h h' I Hh Hh') as [?|?]; auto.
Qed.

End Effects.

(** ** Sessions *)

Section Sessions.
Variable E : Env.

(** C1: [createSession d] answers an id, and stores under its key a record
    for [d] with an empty history whose two timestamps are the two clock
    readings made during the creation; a [getContext d id] that follows
    answers a record with that directory, an empty history and that
    [createdAt] (and, as every read does, with [lastAccessed] refreshed). *)
Theorem C1_create_then_get (d : string) (w : World) :
  ∃ id w1 c w2,
    createSession E d w = (Ok id, w1)
    ∧ stored w1 d id
      = Some {| directory := d; history := [];
                metadata := {| createdAt := stamp E (ticks w);
                               lastAccessed := stamp E (S (ticks w)) |} |}
    ∧ getContext E d id w1 = (Ok (Some c), w2)
    ∧ directory c = d
    ∧ history c = []
    ∧ createdAt (metadata c) = stamp E (ticks w)
    ∧ lastAccessed (metadata c) = stamp E (S (S (ticks w))).
Proof.
  eexists _, _, _, _. split; [apply createSession_run|].
  split; [apply stored_insert|].
  split; [apply getContext_present, stored_insert|].
  repeat split.
Qed.

(** C3: [updateContext] on a key that is absent throws the registry's "No
    context found" error, which is not the validation error of the
    dispatcher, and leaves the content of the store as it was. *)
Theorem C3_update_missing (d id content : string) (w : World) :
  data (redis w) !! getContextKey d id = None →
  ∃ w',
    updateContext E d id content w = (Throw (not_found d id), w')
    ∧ data (redis w') = data (redis w)
    ∧ ∀ m, not_found d id ≠ McpError InvalidParams m.
Proof.
  intros Hk. eexists. split.
  - apply updateContext_absent. now rewrite Hk.
  - split; [reflexivity | discriminate].
Qed.

(** C7: for a key that is absent, [getContext] answers null and
    [endSession] succeeds, both without an exception and without changing
    the content of the store; in any world, [endSession] succeeds, a second
    [endSession] changes nothing more, and a [getContext] that follows
    answers null. *)
Theorem C7_absent_is_not_an_error (d id : string) (w : World) :
  (data (redis w) !! getContextKey d id = None →
     (∃ w1, getContext E d id w = (Ok None, w1) ∧ data (redis w1) = data (redis w))
     ∧ (∃ w2, endSession d id w = (Ok tt, w2) ∧ data (redis w2) = data (redis w)))
  ∧ ∃ w2 w3,
      endSession d id w = (Ok tt, w2)
      ∧ endSession d id w2 = (Ok tt, w2)
      ∧ getContext E d id w2 = (Ok None, w3)
      ∧ stored w3 d id = None.
Proof.
  split.
  - intros Hk. split.
    + eexists. split; [apply getContext_absent; now rewrite Hk | reflexivity].
    + eexists. split; [apply endSession_run|].
      cbn [connected_world redis data]. now apply delete_id.
  - eexists _, _. split; [apply endSession_run|]. split; [|split].
    + rewrite endSession_run. cbn [connected_world redis data ticks draws].
      now rewrite delete_delete_eq.
    + apply getContext_absent. cbn [connected_world redis data].
      now rewrite lookup_delete_eq.
    + unfold stored. cbn [connected_world redis data].
      now rewrite lookup_delete_eq.
Qed.

(** C10: when the value stored under the key is the empty string, the
    adapter's [get] answers that string, which is not its answer for a
    missing key, while the registry acts as if the key were missing:
    [getContext] answers null and [updateContext] throws "No context found",
    exactly as they do once the key is deleted. *)
Theorem C10_empty_value_is_absent (d id content : string) (w : World) :
  data (redis w) !! getContextKey d id = Some "" →
  let gone := snd (endSession d id w) in
  fst (redisClient.get (getContextKey d id) w) = Ok (Some "")
  ∧ fst (redisClient.get (getContextKey d id) gone) = Ok None
  ∧ fst (getContext E d id w) = Ok None
  ∧ fst (getContext E d id gone) = Ok None
  ∧ fst (updateContext E d id content w) = Throw (not_found d id)
  ∧ fst (updateContext E d id content gone) = Throw (not_found d id)
  ∧ data (redis (snd (getContext E d id w))) = data (redis w)
  ∧ data (redis (snd (updateContext E d id content w))) = data (redis w).
Proof.
  intros Hk gone.
  assert (Hgone : data (redis gone) !! getContextKey d id = None).
  { subst gone. rewrite endSession_run. cbn [snd connected_world redis data].
    apply lookup_delete_eq. }
  assert (Hf : falsy (data (redis w) !! getContextKey d id) = true)
    by now rewrite Hk.
  assert (Hg : falsy (data (redis gone) !! getContextKey d id) = true)
    by now rewrite Hgone.
  rewrite !(getContext_absent E _ _ _ Hf), !(getContext_absent E _ _ _ Hg).
  rewrite !(updateContext_absent E _ _ _ _ Hf), !(updateContext_absent E _ _ _ _ Hg).
  repeat split.
  - destruct w as [[[] db] t n]; cbn in *; now rewrite Hk.
  - revert Hgone. generalize gone. intros [[[] db] t n] Hgone; cbn in *;
      now rewrite Hgone.
Qed.

(** C6, as amended: in every sequence of registry calls, a call leaves each
    stored history as it was, or with one entry more at its end, or, only
    when the call is a [createSession] that draws the id of that stored
    session ([createSession] does not check that the id is new), empty: the
    record of the new session is in its place.  So in a sequence in which no
    [createSession] draws an id that is in use, every call leaves each
    stored history as it was, or with one entry more at its end.  No
    [createSession] draws an id in use in a world that the registry built,
    as long as the draws of the random generator are pairwise different.
    And in every world that the registry builds under a clock that does not
    run back, the order of the entries of a stored history is the order of
    their timestamps. *)
Theorem C6_history_append_only (cs : list call) (c : call) (w : World) :
  (∀ d id h h',
     history <$> stored (run_calls E cs w) d id = Some h →
     history <$> stored (run_calls E (cs ++ [c]) w) d id = Some h' →
     h' = h ∨ (∃ e, h' = h ++ [e])
     ∨ (∃ d', c = CreateSession d'
          ∧ getContextKey d' (next_sessionId E (run_calls E cs w))
            = getContextKey d id
          ∧ h' = []))
  ∧ (fresh_calls E (cs ++ [c]) w →
   ∀ d id h h',
     history <$> stored (run_calls E cs w) d id = Some h →
     history <$> stored (run_calls E (cs ++ [c]) w) d id = Some h' →
     h' = h ∨ ∃ e, h' = h ++ [e])
  ∧ (draws_distinct E (draws w + length (cs ++ [c])) → reachable E w →
     fresh_calls E (cs ++ [c]) w)
  ∧ (clock_monotone E → reachable E w →
     ∀ d id r, stored (run_calls E (cs ++ [c]) w) d id = Some r →
       chronological (history r)).
Proof.
  split; [|split; [|split]].
  - intros d id h h' Hh. rewrite run_calls_snoc.
    now apply history_run_call_any.
  - intros Hfresh d id h h' Hh. rewrite run_calls_snoc.
    apply history_run_call; [|exact Hh]. now apply fresh_calls_snoc.
  - apply fresh_calls_reachable.
  - intros Hmono Hw d id r Hr i j e1 e2 Hij H1 H2.
    assert (Hord : ordered E (run_calls E (cs ++ [c]) w))
      by now apply ordered_reachable, reachable_run_calls.
    destruct (Hord d id r Hr i j e1 e2 Hij H1 H2) as (a & b & Hab & _ & -> & ->).
    exists (clock E a), (clock E b). auto.
Qed.

Hypothesis clock_order : clock_monotone E.




End Sessions.

(** ** The statements on a sample run

    The premises of the theorems above hold in the sample environment [E0],
    from the initial world and after [createSession "/proj"]. *)

Lemma C3_update_missing_witness :
  data (redis initial_world) !! getContextKey "/proj" "a1b2" = None
  ∧ ∃ w',
      updateContext E0 "/proj" "a1b2" "hello" initial_world
      = (Throw (not_found "/proj" "a1b2"), w')
      ∧ data (redis w') = data (redis initial_world)
      ∧ ∀ m, not_found "/proj" "a1b2" ≠ McpError InvalidParams m.
Proof.
  assert (H : data (redis initial_world) !! getContextKey "/proj" "a1b2" = None)
    by reflexivity.
  split; [exact H|].
  exact (C3_update_missing E0 "/proj" "a1b2" "hello" initial_world H).
Defined.

Lemma E0_clock_monotone : clock_monotone E0.
Proof. intros i j Hij. cbn. lia. Qed.

Lemma w_proj_stored : stored w_proj "/proj" id_proj = Some c_proj.
Proof. vm_compute. reflexivity. Qed.

(** The example of the spec: create, update, read, end, read. *)
Example session_scenario :
  fst ((let* id := createSession E0 "/proj" in
        updateContext E0 "/proj" id "hello" ;;
        let* c := getContext E0 "/proj" id in
        endSession "/proj" id ;;
        let* c' := getContext E0 "/proj" id in
        ret (id, history <$> c, c')) initial_world)
  = Ok (id_proj, Some [e_proj], None).
Proof. vm_compute. reflexivity. Qed.


Lemma C7_absent_is_not_an_error_witness :
  data (redis initial_world) !! getContextKey "/proj" "a1b2" = None
  ∧ (∃ w1, getContext E0 "/proj" "a1b2" initial_world = (Ok None, w1)
           ∧ data (redis w1) = data (redis initial_world))
  ∧ (∃ w2, endSession "/proj" "a1b2" initial_world = (Ok tt, w2)
           ∧ data (redis w2) = data (redis initial_world)).
Proof.
  assert (H : data (redis initial_world) !! getContextKey "/proj" "a1b2" = None)
    by reflexivity.
  split; [exact H|].
  exact (proj1 (C7_absent_is_not_an_error E0 "/proj" "a1b2" initial_world) H).
Defined.



Lemma E0_draws_distinct (n : nat) : n ≤ 1000 → draws_distinct E0 n.
Proof.
  intros Hn i j Hi Hj. cbn [entropy E0].
  change (2 ^ 128)%N with 340282366920938463463374607431768211456%N.
  rewrite !N.mod_small by lia. lia.
Qed.

(** With the generator that repeats its draw, the second [createSession]
    draws the id of the session that has one entry. *)
Lemma repeat_before :
  history <$> stored (run_calls E_repeat
                        [CreateSession "/proj"; UpdateContext "/proj" id_proj "hello"]
                        initial_world) "/proj" id_proj
  = Some [e_proj].
Proof. vm_compute. reflexivity. Qed.

Lemma repeat_after :
  history <$> stored (run_calls E_repeat
                        ([CreateSession "/proj"; UpdateContext "/proj" id_proj "hello"]
                           ++ [CreateSession "/proj"])
                        initial_world) "/proj" id_proj
  = Some [].
Proof. vm_compute. reflexivity. Qed.

Lemma C6_history_append_only_witness :
  let cs := [CreateSession "/proj"; UpdateContext "/proj" id_proj "hello";
             CreateSession "/proj"] in
  let c := UpdateContext "/proj" id_proj "again" in
  let cs' := [CreateSession "/proj"; UpdateContext "/proj" id_proj "hello"] in
  draws_distinct E0 (draws initial_world + length (cs ++ [c]))
  ∧ reachable E0 initial_world
  ∧ clock_monotone E0
  ∧ fresh_calls E0 (cs ++ [c]) initial_world
  ∧ history <$> stored (run_calls E0 cs initial_world) "/proj" id_proj
    = Some [e_proj]
  ∧ history <$> stored (run_calls E0 (cs ++ [c]) initial_world) "/proj" id_proj
    = Some [e_proj; e_again]
  ∧ ([e_proj; e_again] = [e_proj] ∨ ∃ e, [e_proj; e_again] = [e_proj] ++ [e])
  ∧ chronological [e_proj; e_again]
  ∧ ([] = [e_proj] ∨ (∃ e, [] = [e_proj] ++ [e])
     ∨ (∃ d', CreateSession "/proj" = CreateSession d'
          ∧ getContextKey d' (next_sessionId E_repeat
                                (run_calls E_repeat cs' initial_world))
            = getContextKey "/proj" id_proj
          ∧ @nil HistoryEntry = [])).
Proof.
  intros cs c cs'.
  pose proof (C6_history_append_only E0 cs c initial_world)
    as (_ & Hstep & Hfr & Hchr).
  pose proof (C6_history_append_only E_repeat cs' (CreateSession "/proj")
                initial_world) as (Hany & _).
  assert (Hdraws : draws_distinct E0 (draws initial_world + length (cs ++ [c])))
    by (apply E0_draws_distinct; cbn; lia).
  assert (Hreach : reachable E0 initial_world) by now exists [].
  assert (Hfresh : fresh_calls E0 (cs ++ [c]) initial_world)
    by exact (Hfr Hdraws Hreach).
  assert (H1 : history <$> stored (run_calls E0 cs initial_world) "/proj" id_proj
               = Some [e_proj]) by (vm_compute; reflexivity).
  assert (H2 : history <$> stored (run_calls E0 (cs ++ [c]) initial_world)
                 "/proj" id_proj = Some [e_proj; e_again])
    by (vm_compute; reflexivity).
  assert (H3 : stored (run_calls E0 (cs ++ [c]) initial_world) "/proj" id_proj
               = Some (extended (extended c_proj e_proj "2023-11-14T22:13:20.750Z")
                                e_again "2023-11-14T22:13:21.750Z"))
    by (vm_compute; reflexivity).
  split; [exact Hdraws|]. split; [exact Hreach|].
  split; [exact E0_clock_monotone|]. split; [exact Hfresh|].
  split; [exact H1|]. split; [exact H2|].
  split; [exact (Hstep Hfresh "/proj" id_proj [e_proj] [e_proj; e_again] H1 H2)|].
  split; [exact (Hchr E0_clock_monotone Hreach "/proj" id_proj _ H3)|].
  exact (Hany "/proj" id_proj [e_proj] [] repeat_before repeat_after).
Defined.

(** C6, as the spec has it, fails: when the generator repeats a draw, the
    second [createSession "/proj"] stores its record under the key of the
    first session, whose history of one entry is gone; the history after
    the call is neither the one before nor an extension of it. *)
Lemma C6_history_append_only_counterexample :
  history <$> stored (run_calls E_repeat
                        [CreateSession "/proj"; UpdateContext "/proj" id_proj "hello"]
                        initial_world) "/proj" id_proj
  = Some [e_proj]
  ∧ history <$> stored (run_calls E_repeat
                          ([CreateSession "/proj";
                            UpdateContext "/proj" id_proj "hello"]
                             ++ [CreateSession "/proj"])
                          initial_world) "/proj" id_proj
    = Some []
  ∧ ¬ ([] = [e_proj] ∨ ∃ e, [] = [e_proj] ++ [e])
  ∧ ¬ (∀ (E : Env) (cs : list call) (c : call) (w : World) d id h h',
         history <$> stored (run_calls E cs w) d id = Some h →
         history <$> stored (run_calls E (cs ++ [c]) w) d id = Some h' →
         h' = h ∨ ∃ e, h' = h ++ [e]).
Proof.
  assert (Hno : ¬ ([] = [e_proj] ∨ ∃ e, [] = [e_proj] ++ [e])).
  { intros [H|[e H]]; discriminate H. }
  split; [exact repeat_before|]. split; [exact repeat_after|].
  split; [exact Hno|].
  intros Hall. apply Hno.
  exact (Hall E_repeat _ _ initial_world "/proj" id_proj [e_proj] []
           repeat_before repeat_after).
Qed.

Lemma C10_empty_value_is_absent_witness :
  let k := getContextKey "/proj" "a1b2" in
  let gone := snd (endSession "/proj" "a1b2" w_empty) in
  data (redis w_empty) !! k = Some ""
  ∧ fst (redisClient.get k w_empty) = Ok (Some "")
  ∧ fst (redisClient.get k gone) = Ok None
  ∧ fst (getContext E0 "/proj" "a1b2" w_empty) = Ok None
  ∧ fst (getContext E0 "/proj" "a1b2" gone) = Ok None
  ∧ fst (updateContext E0 "/proj" "a1b2" "hello" w_empty)
    = Throw (not_found "/proj" "a1b2")
  ∧ fst (updateContext E0 "/proj" "a1b2" "hello" gone)
    = Throw (not_found "/proj" "a1b2")
  ∧ data (redis (snd (getContext E0 "/proj" "a1b2" w_empty))) = data (redis w_empty)
  ∧ data (redis (snd (updateContext E0 "/proj" "a1b2" "hello" w_empty)))
    = data (redis w_empty).
Proof.
  intros k gone.
  assert (H : data (redis w_empty) !! k = Some "") by (vm_compute; reflexivity).
  split; [exact H|].
  exact (C10_empty_value_is_absent E0 "/proj" "a1b2" "hello" w_empty H).
Defined.

(** ** The dispatcher *)

Section Dispatcher.
Import ClineMcpServer.
Variable E : Env.

(** Without an arguments object the handler throws before its [try]. *)
Lemma callTool_no_arguments (name : string) (args : jsval) (w : World) :
  object_arguments args = false →
  callTool E name args w = (Throw (McpError InvalidParams "Invalid arguments"), w).
Proof.
  unfold object_arguments, callTool. intros H.
  rewrite <- negb_andb, H. reflexivity.
Qed.

(** The error thrown for an unknown tool is caught by the handler's own
    [catch] and thrown again as an internal error; the world is untouched. *)
Lemma callTool_unknown_tool (name : string) (args : jsval) (w : World) :
  object_arguments args = true → known_tool name = false →
  callTool E name args w
  = (Throw (McpError InternalError
              (mcpMessage E MethodNotFound ("Unknown tool: " +:+ name))), w).
Proof.
  unfold object_arguments, known_tool, callTool. intros H Hn.
  rewrite <- negb_andb, H. cbn [negb].
  repeat (apply orb_false_elim in Hn as [Hn ?]).
  rewrite Hn. repeat match goal with H : _ = false |- _ => rewrite H; clear H end.
  reflexivity.
Qed.

(** The arguments of a known tool are checked before the registry is
    called; the error of a failed check is caught and thrown again as an
    internal error, and the world is untouched. *)
Lemma callTool_invalid_params (name : string) (args : jsval) (w : World) :
  object_arguments args = true → known_tool name = true →
  string_param "directory" args = None
  ∨ (name ≠ "create_session" ∧ string_param "sessionId" args = None)
  ∨ (name = "update_context" ∧ string_param "content" args = None) →
  ∃ m, callTool E name args w
       = (Throw (McpError InternalError (mcpMessage E InvalidParams m)), w).
Proof.
  unfold object_arguments, known_tool, callTool. intros H Hn Hbad.
  rewrite <- negb_andb, H. cbn [negb]. unfold try_catch, throw.
  destruct (String.eqb_spec name "create_session") as [->|Hc].
  { destruct Hbad as [->|[[? _]|[? _]]]; [eexists; reflexivity|done..]. }
  destruct (String.eqb_spec name "get_context") as [->|Hg].
  { destruct Hbad as [->|[[_ ->]|[? _]]]; [| |done].
    - eexists; reflexivity.
    - destruct (string_param "directory" args); eexists; reflexivity. }
  destruct (String.eqb_spec name "update_context") as [->|Hu].
  { destruct Hbad as [->|[[_ ->]|[_ ->]]].
    - eexists; reflexivity.
    - destruct (string_param "directory" args); eexists; reflexivity.
    - destruct (string_param "directory" args), (string_param "sessionId" args);
        eexists; reflexivity. }
  destruct (String.eqb_spec name "end_session") as [->|He]; [|discriminate Hn].
  destruct Hbad as [->|[[_ ->]|[? _]]]; [| |done].
  - eexists; reflexivity.
  - destruct (string_param "directory" args); eexists; reflexivity.
Qed.

(** C8, on the code: the handler throws "method not found" for an unknown
    tool and "invalid params" for a bad argument inside its own [try], whose
    [catch] throws every error again as an internal error.  A call of an
    unknown tool and a call with an argument of the wrong type both end in
    [InternalError]; only a missing arguments object ends in
    [InvalidParams].  In each case the world is untouched. *)
Theorem C8_errors_are_rethrown_internal (w : World) :
  callTool E "no_such_tool" (JObject []) w
  = (Throw (McpError InternalError
              (mcpMessage E MethodNotFound "Unknown tool: no_such_tool")), w)
  ∧ callTool E "update_context"
      (JObject [("directory", JString "/proj"); ("sessionId", JNumber 7);
                ("content", JString "hello")]) w
    = (Throw (McpError InternalError
                (mcpMessage E InvalidParams
                   "Invalid directory, sessionId, or content parameter")), w)
  ∧ callTool E "create_session" (JObject []) w
    = (Throw (McpError InternalError
                (mcpMessage E InvalidParams "Invalid directory parameter")), w)
  ∧ callTool E "create_session" JUndefined w
    = (Throw (McpError InvalidParams "Invalid arguments"), w)
  ∧ InternalError ≠ MethodNotFound ∧ InternalError ≠ InvalidParams.
Proof. repeat split; discriminate. Qed.

End Dispatcher.

(** * Further properties of the code *)

(** ** The registry *)

Section Registry_more.
Variable E : Env.

Lemma validateSession_present (d id : string) (w : World) (c : SessionContext) :
  stored w d id = Some c →
  validateSession E d id w
  = (Ok (String.eqb (directory c) d), snd (getContext E d id w)).
Proof.
  intros Hc. unfold validateSession, bind, ret.
  now rewrite (getContext_present E _ _ _ _ Hc).
Qed.

Lemma validateSession_absent (d id : string) (w : World) :
  falsy (data (redis w) !! getContextKey d id) = true →
  validateSession E d id w = (Ok false, snd (getContext E d id w)).
Proof.
  intros Hf. unfold validateSession, bind, ret.
  now rewrite (getContext_absent E _ _ _ Hf).
Qed.

Lemma stored_created (d : string) (w : World) :
  stored (snd (createSession E d w)) d (next_sessionId E w)
  = Some {| directory := d; history := [];
            metadata := {| createdAt := stamp E (ticks w);
                           lastAccessed := stamp E (S (ticks w)) |} |}.
Proof. rewrite createSession_run. apply stored_insert. Qed.

(** X1: right after [createSession d], [validateSession d id] answers true
    and, like the read it is made of, stores the record with [lastAccessed]
    refreshed; once the session is ended it answers false; and for another
    directory [d'] it answers false, whether the key of (d', id) differs
    (and holds no session) or is the same key because the two hashes
    collide. *)
Theorem X1_validateSession_checks_directory (d d' : string) (w : World) :
  let id := next_sessionId E w in
  let w1 := snd (createSession E d w) in
  fst (validateSession E d id w1) = Ok true
  ∧ lastAccessed <$> (metadata <$> stored (snd (validateSession E d id w1)) d id)
    = Some (stamp E (ticks w1))
  ∧ fst (validateSession E d id (snd (endSession d id w1))) = Ok false
  ∧ (d' ≠ d → data (redis w) !! getContextKey d' id = None →
     fst (validateSession E d' id w1) = Ok false).
Proof.
  intros id w1. split; [|split; [|split]].
  - subst w1 id. rewrite (validateSession_present _ _ _ _ (stored_created d w)).
    cbn [fst directory]. now rewrite String.eqb_refl.
  - subst w1 id. rewrite (validateSession_present _ _ _ _ (stored_created d w)).
    rewrite (getContext_present E _ _ _ _ (stored_created d w)).
    cbn [snd]. now rewrite stored_insert.
  - rewrite validateSession_absent; [reflexivity|].
    rewrite endSession_run. cbn [snd connected_world redis data].
    now rewrite lookup_delete_eq.
  - intros Hd Hk.
    destruct (decide (getContextKey d id = getContextKey d' id)) as [Heq|Hne].
    + assert (Hc : stored w1 d' id = stored w1 d id) by (unfold stored; now rewrite Heq).
      subst w1 id. rewrite stored_created in Hc.
      rewrite (validateSession_present _ _ _ _ Hc). cbn [fst directory].
      f_equal. apply String.eqb_neq. congruence.
    + rewrite validateSession_absent; [reflexivity|].
      subst w1. rewrite createSession_run. cbn [snd connected_world redis data].
      fold id. rewrite lookup_insert_ne by exact Hne. now rewrite Hk.
Qed.

(** X2: when two directories have the same 8-character hash, a session
    created for the first is the session of the second too: under the same
    id [getContext] for the second directory answers the record of the
    first, [updateContext] appends to it and [endSession] deletes it. *)
Theorem X2_hash_collision_shares_session (d1 d2 content : string) (w : World) :
  hashDirectory d1 = hashDirectory d2 →
  let id := next_sessionId E w in
  let w1 := snd (createSession E d1 w) in
  let e := {| timestamp := stamp E (ticks w1); content := content |} in
  getContextKey d2 id = getContextKey d1 id
  ∧ (∃ c, fst (getContext E d2 id w1) = Ok (Some c)
          ∧ directory c = d1 ∧ history c = [])
  ∧ fst (updateContext E d2 id content w1) = Ok tt
  ∧ history <$> stored (snd (updateContext E d2 id content w1)) d1 id = Some [e]
  ∧ stored (snd (endSession d2 id w1)) d1 id = None.
Proof.
  intros Hh id w1 e.
  assert (Hk : getContextKey d2 id = getContextKey d1 id)
    by (unfold getContextKey; now rewrite Hh).
  assert (Hc : stored w1 d2 id = stored w1 d1 id) by (unfold stored; now rewrite Hk).
  subst w1 id. rewrite stored_created in Hc.
  split; [exact Hk|]. split; [|split; [|split]].
  - rewrite (getContext_present E _ _ _ _ Hc). eexists. repeat split.
  - now rewrite (updateContext_present E _ _ _ _ _ Hc).
  - rewrite (updateContext_present E _ _ _ _ _ Hc). cbn [snd]. rewrite Hk.
    now rewrite stored_insert.
  - rewrite endSession_run. unfold stored. cbn [snd connected_world redis data].
    now rewrite Hk, lookup_delete_eq.
Qed.

(** X3: after [endSession d id], in any world, [updateContext d id] throws
    "No context found", leaves the store as it is, and the session stays
    absent. *)
Theorem X3_update_after_end (d id content : string) (w : World) :
  let w1 := snd (endSession d id w) in
  fst (updateContext E d id content w1) = Throw (not_found d id)
  ∧ data (redis (snd (updateContext E d id content w1))) = data (redis w1)
  ∧ stored (snd (updateContext E d id content w1)) d id = None.
Proof.
  intros w1.
  assert (Hk : data (redis w1) !! getContextKey d id = None).
  { subst w1. rewrite endSession_run. cbn [snd connected_world redis data].
    apply lookup_delete_eq. }
  rewrite updateContext_absent by now rewrite Hk.
  repeat split. unfold stored. cbn [snd connected_world redis data]. now rewrite Hk.
Qed.

(** X4: a registry call changes no key of the store but the one it
    addresses. *)
Theorem X4_call_touches_one_key (c : call) (w : World) (k : string) :
  k ≠ call_key E c w →
  data (redis (run_call E c w)) !! k = data (redis w) !! k.
Proof.
  intros Hk.
  destruct (run_call_effect E c w) as [_ Heff]. cbv zeta in Heff.
  destruct Heff as [Hd|[(d0 & -> & Ht' & Hd)|[(d0 & id0 & c0 & -> & Hc0 & Hd)
                   |[(d0 & id0 & content & c0 & -> & Hc0 & Hd)|(d0 & id0 & -> & Hd)]]]];
    rewrite Hd; cbn [call_key] in Hk;
    [reflexivity | now rewrite lookup_insert_ne.. | now rewrite lookup_delete_ne].
Qed.

(** X5: [createSession] adds the key it addresses, [endSession] removes
    it, and [getContext] and [updateContext] neither add nor remove any key:
    they never create a session. *)
Theorem X5_keys_after_a_call (c : call) (w : World) :
  dom (data (redis (run_call E c w)))
  = match c with
    | CreateSession _ => {[ call_key E c w ]} ∪ dom (data (redis w))
    | EndSession _ _ => dom (data (redis w)) ∖ {[ call_key E c w ]}
    | _ => dom (data (redis w))
    end.
Proof.
  destruct c as [d|d id|d id content|d id]; cbn [run_call call_key].
  - rewrite createSession_run. cbn [snd connected_world redis data].
    apply dom_insert_L.
  - destruct (lookup_cases w d id) as [Hf|[[c0 Hc]|(v & Hv & Hf & Hp)]].
    + now rewrite (getContext_absent E _ _ _ Hf).
    + rewrite (getContext_present E _ _ _ _ Hc). cbn [snd connected_world redis data].
      apply dom_insert_lookup_L. now apply (stored_is_Some w d id c0).
    + now rewrite (getContext_bad E _ _ _ _ Hv Hf Hp).
  - destruct (lookup_cases w d id) as [Hf|[[c0 Hc]|(v & Hv & Hf & Hp)]].
    + now rewrite (updateContext_absent E _ _ _ _ Hf).
    + rewrite (updateContext_present E _ _ _ _ _ Hc).
      cbn [snd connected_world redis data].
      apply dom_insert_lookup_L. now apply (stored_is_Some w d id c0).
    + now rewrite (updateContext_bad E _ _ _ _ _ Hv Hf Hp).
  - rewrite endSession_run. cbn [snd connected_world redis data].
    apply dom_delete_L.
Qed.

Lemma run_call_update (d id content : string) (w : World) (c0 : SessionContext) :
  stored w d id = Some c0 →
  run_call E (UpdateContext d id content) w
  = connected_world
      (<[getContextKey d id :=
           JSON.stringify
             (extended c0 {| timestamp := stamp E (ticks w); content := content |}
                       (stamp E (S (ticks w))))]> (data (redis w)))
      (S (S (ticks w))) (draws w).
Proof.
  intros Hc. cbn [run_call]. now rewrite (updateContext_present E _ _ _ _ _ Hc).
Qed.

Lemma run_call_get (d id : string) (w : World) (c0 : SessionContext) :
  stored w d id = Some c0 →
  run_call E (GetContext d id) w
  = connected_world
      (<[getContextKey d id := JSON.stringify (touched c0 (stamp E (ticks w)))]>
         (data (redis w)))
      (S (ticks w)) (draws w).
Proof.
  intros Hc. cbn [run_call]. now rewrite (getContext_present E _ _ _ _ Hc).
Qed.

(** X6: a run of [updateContext] calls on a stored session appends one
    entry per call, with the contents in the order of the calls, after the
    entries that were there; directory and [createdAt] stay. *)
Theorem X6_updates_accumulate (d id : string) (cs : list string) (w : World)
    (c0 : SessionContext) :
  stored w d id = Some c0 →
  ∃ c1 new,
    stored (run_calls E (map (UpdateContext d id) cs) w) d id = Some c1
    ∧ history c1 = history c0 ++ new
    ∧ content <$> new = cs
    ∧ directory c1 = directory c0
    ∧ createdAt (metadata c1) = createdAt (metadata c0).
Proof.
  revert w c0. induction cs as [|x cs IH]; intros w c0 Hc.
  - exists c0, []. cbn. rewrite app_nil_r. auto.
  - cbn [map]. change (run_calls E (?c :: ?l) w) with (run_calls E l (run_call E c w)).
    rewrite (run_call_update _ _ _ _ _ Hc).
    edestruct IH as (c1 & new & H1 & H2 & H3 & H4 & H5); [apply stored_insert|].
    exists c1, ({| timestamp := stamp E (ticks w); content := x |} :: new).
    split; [exact H1|]. cbn [extended history directory metadata createdAt] in *.
    split; [now rewrite H2, <- app_assoc|]. split; [cbn; now rewrite H3|]. auto.
Qed.

Lemma accessed_last_run_call (c : call) (w : World) :
  accessed_last E w → accessed_last E (run_call E c w).
Proof.
  intros Hw d id c1.
  destruct (run_call_effect E c w) as [Ht Heff]. cbv zeta in Heff.
  assert (Hold : ∀ c', stored w d id = Some c' →
    ∃ a l, a ≤ l ∧ l < ticks (run_call E c w)
      ∧ createdAt (metadata c') = stamp E a
      ∧ lastAccessed (metadata c') = stamp E l
      ∧ ∀ e, e ∈ history c' → ∃ t, a ≤ t ∧ t ≤ l ∧ timestamp e = stamp E t).
  { intros c' Hc'. destruct (Hw _ _ _ Hc') as (a & l & ? & ? & ? & ? & ?).
    exists a, l. repeat split; [lia..|done|done|done]. }
  destruct Heff as [Hd|[(d0 & -> & Ht' & Hd)|[(d0 & id0 & c0 & -> & Hc0 & Hd)
                   |[(d0 & id0 & content & c0 & -> & Hc0 & Hd)|(d0 & id0 & -> & Hd)]]]].
  - rewrite (stored_data _ _ _ _ Hd). apply Hold.
  - rewrite (stored_write _ _ _ _ _ _ Hd). case_decide; [|apply Hold].
    intros [= <-]. exists (ticks w), (S (ticks w)).
    cbn [metadata createdAt lastAccessed history].
    repeat split; [lia..|]. intros e He. now apply elem_of_nil in He.
  - rewrite (stored_write _ _ _ _ _ _ Hd). case_decide as Hk; [|apply Hold].
    intros [= <-]. destruct (Hw _ _ _ Hc0) as (a & l & ? & ? & Ha & Hl & He).
    rewrite (run_call_get _ _ _ _ Hc0). cbn [connected_world ticks].
    exists a, (ticks w). cbn [touched metadata createdAt lastAccessed history].
    repeat split; [lia..|done|].
    intros e Hin. destruct (He e Hin) as (t & ? & ? & ?). exists t.
    repeat split; [lia..|done].
  - rewrite (stored_write _ _ _ _ _ _ Hd). case_decide as Hk; [|apply Hold].
    intros [= <-]. destruct (Hw _ _ _ Hc0) as (a & l & ? & ? & Ha & Hl & He).
    rewrite (run_call_update _ _ _ _ _ Hc0). cbn [connected_world ticks].
    exists a, (S (ticks w)). cbn [extended metadata createdAt lastAccessed history].
    repeat split; [lia..|done|].
    intros e [Hin| ->%list_elem_of_singleton]%elem_of_app.
    + destruct (He e Hin) as (t & ? & ? & ?). exists t. repeat split; [lia..|done].
    + exists (ticks w). repeat split; lia.
  - rewrite (stored_delete _ _ _ _ _ Hd). case_decide; [discriminate|apply Hold].
Qed.

Lemma accessed_last_reachable (w : World) : reachable E w → accessed_last E w.
Proof.
  intros [cs ->]. unfold run_calls.
  assert (H0 : accessed_last E initial_world).
  { intros d id c. unfold stored. cbn. now rewrite lookup_empty. }
  revert H0. generalize initial_world.
  induction cs as [|c cs IH]; intros w Hw; [exact Hw|].
  apply IH, accessed_last_run_call, Hw.
Qed.

(** X7: in a world that the registry built under a clock that does not run
    back, every stored session has [createdAt] not after [lastAccessed], and
    the timestamp of each entry lies between the two. *)
Theorem X7_lastAccessed_is_latest (d id : string) (w : World) (c : SessionContext) :
  clock_monotone E → reachable E w → stored w d id = Some c →
  iso_le (createdAt (metadata c)) (lastAccessed (metadata c))
  ∧ ∀ e, e ∈ history c →
      iso_le (createdAt (metadata c)) (timestamp e)
      ∧ iso_le (timestamp e) (lastAccessed (metadata c)).
Proof.
  intros Hmono Hw Hc.
  destruct (accessed_last_reachable w Hw d id c Hc) as (a & l & Hal & _ & -> & -> & He).
  split; [exists (clock E a), (clock E l); auto|].
  intros e (t & Hat & Htl & ->)%He.
  split; [exists (clock E a), (clock E t) | exists (clock E t), (clock E l)]; auto.
Qed.

(** X8: two successive [createSession] calls whose 128-bit draws differ
    answer different ids, also for one and the same directory, and both
    sessions are stored afterwards with empty histories. *)
Theorem X8_createSession_gives_a_new_session (d1 d2 : string) (w : World) :
  (entropy E (draws w) mod 2 ^ 128 ≠ entropy E (S (draws w)) mod 2 ^ 128)%N →
  ∃ id1 w1 id2 w2,
    createSession E d1 w = (Ok id1, w1)
    ∧ createSession E d2 w1 = (Ok id2, w2)
    ∧ id1 ≠ id2
    ∧ history <$> stored w2 d1 id1 = Some []
    ∧ history <$> stored w2 d2 id2 = Some [].
Proof.
  intros Hne.
  assert (Hid : sessionId_of E (draws w) ≠ sessionId_of E (S (draws w))).
  { unfold sessionId_of. intros H. apply Hne.
    apply Hex_facts.hex_bytes_inj in H;
      [|apply Hex_facts.be_bytes_lt..|now rewrite !Hex_facts.be_bytes_length].
    now apply Hex_facts.be_bytes_inj in H. }
  eexists _, _, _, _.
  split; [apply createSession_run|]. split; [apply createSession_run|].
  unfold next_sessionId, stored, connected_world. cbn [ticks draws redis data].
  split; [exact Hid|]. split.
  - rewrite lookup_insert_ne
      by (intros Hk; apply getContextKey_inj_id in Hk; now apply Hid).
    rewrite lookup_insert_eq. cbn [mbind option_bind].
    now rewrite JSON_facts.parse_stringify.
  - rewrite lookup_insert_eq. cbn [mbind option_bind].
    now rewrite JSON_facts.parse_stringify.
Qed.

End Registry_more.

(** ** Session ids and keys *)

Section Shapes.
Variable E : Env.

Lemma is_hex_digit (x : N) : is_hex (Hex.hex_digit (x mod 16)) = true.
Proof.
  assert (x mod 16 < 16)%N as Hlt by (apply N.mod_lt; lia).
  revert Hlt. generalize (x mod 16)%N. intros k Hk.
  assert (k = 0 ∨ k = 1 ∨ k = 2 ∨ k = 3 ∨ k = 4 ∨ k = 5 ∨ k = 6 ∨ k = 7 ∨ k = 8
          ∨ k = 9 ∨ k = 10 ∨ k = 11 ∨ k = 12 ∨ k = 13 ∨ k = 14 ∨ k = 15)%N
    as Hc by lia.
  repeat (destruct Hc as [->|Hc]; [reflexivity|]). now subst.
Qed.

Lemma all_hex_hex_bytes (l : list N) : all_hex (Hex.hex_bytes l) = true.
Proof.
  induction l as [|b l IH]; [reflexivity|].
  unfold all_hex in *. cbn [Hex.hex_bytes Hex.hex_byte list_ascii_of_string forallb].
  now rewrite !is_hex_digit, IH.
Qed.

Lemma all_hex_hashDirectory (d : string) : all_hex (hashDirectory d) = true.
Proof.
  cbv [hashDirectory Sha256.sha256_hex Sha256.hex_word Hex.hex_byte
       String.substring all_hex list_ascii_of_string forallb].
  now rewrite !is_hex_digit.
Qed.

Lemma escape_hex (c : ascii) : is_hex c = true → JSON.escape c = String c "".
Proof.
  destruct c as [[] [] [] [] [] [] [] []]; intros H;
    first [discriminate H | reflexivity].
Qed.

Lemma quote_body_hex (s : string) : all_hex s = true → JSON.quote_body s = s.
Proof.
  unfold all_hex. induction s as [|c s IH]; [reflexivity|].
  cbn [list_ascii_of_string forallb JSON.quote_body].
  intros [Hc Hs]%andb_prop. rewrite (escape_hex c Hc), IH by exact Hs.
  reflexivity.
Qed.

(** X9: [generateSessionId] answers 32 lowercase hexadecimal characters,
    uses one draw and touches neither the store nor the clock;
    [hashDirectory] answers 8 such characters; a storage key is 55
    characters long; and JSON quoting leaves a session id as it is. *)
Theorem X9_ids_and_keys_are_hex (d : string) (w : World) :
  ∃ id w',
    generateSessionId E w = (Ok id, w')
    ∧ String.length id = 32 ∧ all_hex id = true
    ∧ redis w' = redis w ∧ ticks w' = ticks w ∧ draws w' = S (draws w)
    ∧ String.length (hashDirectory d) = 8 ∧ all_hex (hashDirectory d) = true
    ∧ String.length (getContextKey d id) = 55
    ∧ JSON.quote id = String JSON.dquote (id +:+ String JSON.dquote "").
Proof.
  eexists _, _. split; [reflexivity|].
  split; [reflexivity|]. split; [apply all_hex_hex_bytes|].
  repeat split; [apply all_hex_hashDirectory|].
  unfold JSON.quote. now rewrite quote_body_hex by apply all_hex_hex_bytes.
Qed.

End Shapes.

(** ** The dispatcher, tool by tool *)

Section Tools.
Import ClineMcpServer.
Variable E : Env.

Lemma string_param_object (k : string) (args : jsval) (s : string) :
  string_param k args = Some s → object_arguments args = true.
Proof.
  unfold string_param, object_arguments.
  destruct args; cbn; try discriminate. reflexivity.
Qed.

Lemma callTool_object (n : string) (args : jsval) :
  object_arguments args = true →
  negb (truthy args) || negb (String.eqb (typeof args) "object") = false.
Proof. unfold object_arguments. intros H. now rewrite <- negb_andb, H. Qed.

Lemma callTool_create_session (args : jsval) (d : string) (w : World) :
  string_param "directory" args = Some d →
  callTool E "create_session" args w
  = (Ok (JSON.stringify_sessionId (next_sessionId E w)),
     snd (createSession E d w)).
Proof.
  intros Hd. unfold callTool.
  rewrite (callTool_object "" _ (string_param_object _ _ _ Hd)).
  cbn [String.eqb Ascii.eqb Bool.eqb andb]. rewrite Hd.
  unfold try_catch, bind, ret. now rewrite createSession_run.
Qed.

Lemma callTool_get_context (args : jsval) (d id : string) (w : World) :
  string_param "directory" args = Some d →
  string_param "sessionId" args = Some id →
  callTool E "get_context" args w
  = (match fst (getContext E d id w) with
     | Ok c => Ok (JSON.stringify_nullable c)
     | Throw e => Throw (McpError InternalError (error_message E e))
     end, snd (getContext E d id w)).
Proof.
  intros Hd Hi. unfold callTool.
  rewrite (callTool_object "" _ (string_param_object _ _ _ Hd)).
  cbn [String.eqb Ascii.eqb Bool.eqb andb]. rewrite Hd, Hi.
  unfold try_catch, bind, ret, throw.
  now destruct (getContext E d id w) as [[c|e] w'].
Qed.

Lemma callTool_update_context (args : jsval) (d id content : string) (w : World) :
  string_param "directory" args = Some d →
  string_param "sessionId" args = Some id →
  string_param "content" args = Some content →
  callTool E "update_context" args w
  = (match fst (updateContext E d id content w) with
     | Ok _ => Ok JSON.stringify_success
     | Throw e => Throw (McpError InternalError (error_message E e))
     end, snd (updateContext E d id content w)).
Proof.
  intros Hd Hi Hc. unfold callTool.
  rewrite (callTool_object "" _ (string_param_object _ _ _ Hd)).
  cbn [String.eqb Ascii.eqb Bool.eqb andb]. rewrite Hd, Hi, Hc.
  unfold try_catch, bind, ret, throw.
  now destruct (updateContext E d id content w) as [[c|e] w'].
Qed.

Lemma callTool_end_session (args : jsval) (d id : string) (w : World) :
  string_param "directory" args = Some d →
  string_param "sessionId" args = Some id →
  callTool E "end_session" args w
  = (Ok JSON.stringify_success, snd (endSession d id w)).
Proof.
  intros Hd Hi. unfold callTool.
  rewrite (callTool_object "" _ (string_param_object _ _ _ Hd)).
  cbn [String.eqb Ascii.eqb Bool.eqb andb]. rewrite Hd, Hi.
  unfold try_catch, bind, ret. now rewrite endSession_run.
Qed.

(** X10: [create_session] with a string [directory] answers the text
    {"sessionId":"<id>"} with the id verbatim, and a [get_context] call with
    that directory and id then answers a text that parses to the stored
    record: directory [d], empty history. *)
Theorem X10_create_session_tool (args args' : jsval) (d : string) (w : World) :
  string_param "directory" args = Some d →
  let id := next_sessionId E w in
  string_param "directory" args' = Some d →
  string_param "sessionId" args' = Some id →
  ∃ w1 text w2 c,
    callTool E "create_session" args w = (Ok (JSON.stringify_sessionId id), w1)
    ∧ JSON.stringify_sessionId id
      = "{" +:+ JSON.key "sessionId" +:+
        String JSON.dquote (id +:+ String JSON.dquote "}")
    ∧ callTool E "get_context" args' w1 = (Ok text, w2)
    ∧ JSON.parse text = Some c
    ∧ directory c = d ∧ history c = []
    ∧ stored w2 d id = Some c.
Proof.
  intros Hd id Hd' Hi'. subst id. eexists _, _, _, _.
  split; [exact (callTool_create_session args d w Hd)|]. split.
  { unfold JSON.stringify_sessionId, JSON.quote.
    rewrite quote_body_hex by apply all_hex_hex_bytes.
    cbn [String.append]. now rewrite append_assoc. }
  rewrite (callTool_get_context _ _ _ _ Hd' Hi').
  rewrite (getContext_present E _ _ _ _ (stored_created E d w)).
  cbn [fst snd JSON.stringify_nullable].
  split; [reflexivity|]. split; [apply JSON_facts.parse_stringify|].
  split; [reflexivity|]. split; [reflexivity|]. apply stored_insert.
Qed.

(** X11: [get_context] with string arguments answers the text "null" for
    a session that is not there, without changing the store; for a stored
    session it answers a text that parses to the record with [lastAccessed]
    refreshed, which is also what it stores. *)
Theorem X11_get_context_tool (args : jsval) (d id : string) (w : World) :
  string_param "directory" args = Some d →
  string_param "sessionId" args = Some id →
  (falsy (data (redis w) !! getContextKey d id) = true →
     fst (callTool E "get_context" args w) = Ok "null"
     ∧ data (redis (snd (callTool E "get_context" args w))) = data (redis w))
  ∧ (∀ c, stored w d id = Some c →
     ∃ text,
       fst (callTool E "get_context" args w) = Ok text
       ∧ JSON.parse text = Some (touched c (stamp E (ticks w)))
       ∧ stored (snd (callTool E "get_context" args w)) d id
         = Some (touched c (stamp E (ticks w)))).
Proof.
  intros Hd Hi. rewrite (callTool_get_context _ _ _ _ Hd Hi). split.
  - intros Hf. now rewrite (getContext_absent E _ _ _ Hf).
  - intros c Hc. rewrite (getContext_present E _ _ _ _ Hc).
    cbn [fst snd JSON.stringify_nullable]. eexists. split; [reflexivity|].
    split; [apply JSON_facts.parse_stringify | apply stored_insert].
Qed.

(** X12: [update_context] with string arguments on a session that is not
    there throws an internal error whose message is the registry's "No
    context found for session ... in directory ...", and the store is
    unchanged; on a stored session it answers {"success":true} and the
    entry is appended. *)
Theorem X12_update_context_tool (args : jsval) (d id content : string) (w : World) :
  string_param "directory" args = Some d →
  string_param "sessionId" args = Some id →
  string_param "content" args = Some content →
  (falsy (data (redis w) !! getContextKey d id) = true →
     fst (callTool E "update_context" args w)
     = Throw (McpError InternalError
                ("No context found for session " +:+ id +:+
                 " in directory " +:+ d))
     ∧ data (redis (snd (callTool E "update_context" args w))) = data (redis w))
  ∧ (∀ c, stored w d id = Some c →
     fst (callTool E "update_context" args w) = Ok JSON.stringify_success
     ∧ stored (snd (callTool E "update_context" args w)) d id
       = Some (extended c {| timestamp := stamp E (ticks w); content := content |}
                        (stamp E (S (ticks w))))).
Proof.
  intros Hd Hi Hc. rewrite (callTool_update_context _ _ _ _ _ Hd Hi Hc). split.
  - intros Hf. now rewrite (updateContext_absent E _ _ _ _ Hf).
  - intros c Hs. rewrite (updateContext_present E _ _ _ _ _ Hs).
    cbn [fst snd]. split; [reflexivity | apply stored_insert].
Qed.

(** X13: [end_session] with string arguments answers {"success":true}
    and deletes the key; a second call answers the same and changes
    nothing; a [get_context] call then answers "null". *)
Theorem X13_end_session_tool (args : jsval) (d id : string) (w : World) :
  string_param "directory" args = Some d →
  string_param "sessionId" args = Some id →
  let w1 := snd (callTool E "end_session" args w) in
  fst (callTool E "end_session" args w) = Ok JSON.stringify_success
  ∧ data (redis w1) = delete (getContextKey d id) (data (redis w))
  ∧ callTool E "end_session" args w1 = (Ok JSON.stringify_success, w1)
  ∧ fst (callTool E "get_context" args w1) = Ok "null".
Proof.
  intros Hd Hi w1. subst w1.
  rewrite !(callTool_end_session _ _ _ _ Hd Hi), (callTool_get_context _ _ _ _ Hd Hi).
  rewrite !endSession_run. cbn [fst snd connected_world redis data ticks draws].
  split; [reflexivity|]. split; [reflexivity|]. split.
  - now rewrite delete_delete_eq.
  - rewrite getContext_absent; [reflexivity|].
    cbn [connected_world redis data]. now rewrite lookup_delete_eq.
Qed.

(** X14: whatever the tool and the arguments, an exception of the handler
    is either the "Invalid arguments" error thrown before anything is done,
    or an internal error; no other error code and no plain [Error] leaves
    it. *)
Theorem X14_dispatcher_exceptions (n : string) (args : jsval) (w w' : World) (e : exn) :
  callTool E n args w = (Throw e, w') →
  (e = McpError InvalidParams "Invalid arguments" ∧ w' = w)
  ∨ ∃ e0, e = McpError InternalError (error_message E e0).
Proof.
  unfold callTool.
  destruct (negb (truthy args) || negb (String.eqb (typeof args) "object")).
  - intros [= <- <-]. now left.
  - unfold try_catch at 1. unfold throw at 5.
    match goal with |- context [match ?m w with _ => _ end] =>
      destruct (m w) as [[a|e0] w0] end.
    + discriminate.
    + intros [= <- <-]. right. now exists e0.
Qed.

End Tools.

Section Schema.
Import ClineMcpServer.
Variable E : Env.

Lemma run_call_connected (c : call) (w : World) :
  connected (redis (run_call E c w)) = true.
Proof.
  destruct c as [d|d id|d id content|d id]; cbn [run_call].
  - now rewrite createSession_run.
  - destruct (lookup_cases w d id) as [Hf|[[c0 Hc]|(v & Hv & Hf & Hp)]].
    + now rewrite (getContext_absent E _ _ _ Hf).
    + now rewrite (getContext_present E _ _ _ _ Hc).
    + now rewrite (getContext_bad E _ _ _ _ Hv Hf Hp).
  - destruct (lookup_cases w d id) as [Hf|[[c0 Hc]|(v & Hv & Hf & Hp)]].
    + now rewrite (updateContext_absent E _ _ _ _ Hf).
    + now rewrite (updateContext_present E _ _ _ _ _ Hc).
    + now rewrite (updateContext_bad E _ _ _ _ _ Hv Hf Hp).
  - now rewrite endSession_run.
Qed.

Lemma tools_table :
  Forall (λ t, schema_type (inputSchema t) = "object"
               ∧ (properties (inputSchema t)).*1 = required (inputSchema t)
               ∧ Forall (λ p, property_type p.2 = "string")
                        (properties (inputSchema t))) tools
  ∧ NoDup (name <$> tools).
Proof.
  split.
  - repeat constructor.
  - apply (bool_decide_unpack _). vm_compute. reflexivity.
Qed.

(** X15: the handler checks what the tool list declares.  For an
    arguments object, the registry is called exactly when the tool is
    listed and every field that its schema requires comes with a string
    value: then the world is that of one registry call and the adapter is
    connected; otherwise the handler throws an internal error and the world
    is untouched. *)
Theorem X15_listed_schema_is_what_is_checked (n : string) (args : jsval) (w : World) :
  object_arguments args = true →
  let checked := match find_tool n with
                 | Some t => required_strings t args
                 | None => false
                 end in
  (checked = true →
     connected (redis (snd (callTool E n args w))) = true
     ∧ ∃ c, snd (callTool E n args w) = run_call E c w)
  ∧ (checked = false →
     snd (callTool E n args w) = w
     ∧ ∃ m, fst (callTool E n args w) = Throw (McpError InternalError m)).
Proof.
  intros Ho.
  assert (Hvalid : ∀ c, snd (callTool E n args w) = run_call E c w →
            connected (redis (snd (callTool E n args w))) = true
            ∧ ∃ c, snd (callTool E n args w) = run_call E c w).
  { intros c Hc. split; [rewrite Hc; apply run_call_connected | now exists c]. }
  destruct (String.eqb_spec n "create_session") as [->|H1].
  { cbn [find_tool tools find name String.eqb Ascii.eqb Bool.eqb andb
         required_strings required inputSchema forallb].
    destruct (string_param "directory" args) as [d|] eqn:Hd;
      (split; intros Hchk; [|try discriminate Hchk]; try discriminate Hchk).
    - apply (Hvalid (CreateSession d)).
      now rewrite (callTool_create_session E _ _ _ Hd).
    - unfold callTool. rewrite (callTool_object "" _ Ho).
      cbn [String.eqb Ascii.eqb Bool.eqb andb]. rewrite Hd.
      split; [reflexivity | eexists; reflexivity]. }
  destruct (String.eqb_spec n "get_context") as [->|H2].
  { cbn [find_tool tools find name String.eqb Ascii.eqb Bool.eqb andb
         required_strings required inputSchema forallb].
    destruct (string_param "directory" args) as [d|] eqn:Hd;
      destruct (string_param "sessionId" args) as [id|] eqn:Hi;
      (split; intros Hchk; try discriminate Hchk);
      try (unfold callTool; rewrite (callTool_object "" _ Ho);
           cbn [String.eqb Ascii.eqb Bool.eqb andb]; rewrite ?Hd, ?Hi;
           split; [reflexivity | eexists; reflexivity]).
    apply (Hvalid (GetContext d id)).
    now rewrite (callTool_get_context E _ _ _ _ Hd Hi). }
  destruct (String.eqb_spec n "update_context") as [->|H3].
  { cbn [find_tool tools find name String.eqb Ascii.eqb Bool.eqb andb
         required_strings required inputSchema forallb].
    destruct (string_param "directory" args) as [d|] eqn:Hd;
      destruct (string_param "sessionId" args) as [id|] eqn:Hi;
      destruct (string_param "content" args) as [content|] eqn:Hc;
      (split; intros Hchk; try discriminate Hchk);
      try (unfold callTool; rewrite (callTool_object "" _ Ho);
           cbn [String.eqb Ascii.eqb Bool.eqb andb]; rewrite ?Hd, ?Hi, ?Hc;
           split; [reflexivity | eexists; reflexivity]).
    apply (Hvalid (UpdateContext d id content)).
    now rewrite (callTool_update_context E _ _ _ _ _ Hd Hi Hc). }
  destruct (String.eqb_spec n "end_session") as [->|H4].
  { cbn [find_tool tools find name String.eqb Ascii.eqb Bool.eqb andb
         required_strings required inputSchema forallb].
    destruct (string_param "directory" args) as [d|] eqn:Hd;
      destruct (string_param "sessionId" args) as [id|] eqn:Hi;
      (split; intros Hchk; try discriminate Hchk);
      try (unfold callTool; rewrite (callTool_object "" _ Ho);
           cbn [String.eqb Ascii.eqb Bool.eqb andb]; rewrite ?Hd, ?Hi;
           split; [reflexivity | eexists; reflexivity]).
    apply (Hvalid (EndSession d id)).
    now rewrite (callTool_end_session E _ _ _ _ Hd Hi). }
  assert (Hk : known_tool n = false).
  { unfold known_tool. now rewrite !(proj2 (String.eqb_neq _ _)). }
  unfold find_tool, tools. cbn [find name].
  rewrite !(proj2 (String.eqb_neq _ _)) by congruence.
  split; intros Hchk; [discriminate Hchk|].
  rewrite (callTool_unknown_tool E _ _ _ Ho Hk).
  split; [reflexivity | eexists; reflexivity].
Qed.

(** X19: a field passes the check of the handler exactly when the arguments
    are an object that has it with a string value; the empty string passes,
    so [create_session] accepts an empty directory and creates its
    session, while null, a number, a boolean, an array or an object in its
    place is refused. *)
Theorem X19_string_fields (k : string) (args : jsval) (w : World) :
  (∀ s, string_param k args = Some s
        ↔ ∃ fields, args = JObject fields ∧ assoc k fields = Some (JString s))
  ∧ (string_param "directory" args = Some "" →
     ∃ id w1, callTool E "create_session" args w
              = (Ok (JSON.stringify_sessionId id), w1)
              ∧ directory <$> stored w1 "" id = Some "")
  ∧ (∀ fields v, args = JObject fields → assoc k fields = Some v →
       typeof v ≠ "string" → string_param k args = None).
Proof.
  split; [|split].
  - intros s. unfold string_param, has_property, get_property. split.
    + destruct args as [| | | | |?|fields]; cbn; try discriminate.
      destruct (assoc k fields) as [[]|] eqn:Hk; cbn; try discriminate.
      intros [= ->]. eauto.
    + intros (fields & -> & Hk). now rewrite Hk.
  - intros Hd. eexists _, _. split; [exact (callTool_create_session E _ _ _ Hd)|].
    now rewrite stored_created.
  - intros fields v -> Hk Hty. unfold string_param, has_property, get_property.
    rewrite Hk. cbn. destruct v; cbn in *; congruence.
Qed.

End Schema.

(** ** The store adapter *)

Section Adapter.
Variable E : Env.

(** X16: the adapter connects on demand, so the registry does not observe
    the state of the connection: in two worlds that differ in it only,
    every operation gives the same answer and the same world, and after any
    call the adapter is connected. *)
Theorem X16_connection_state_is_not_observed (w1 w2 : World) :
  data (redis w1) = data (redis w2) → ticks w1 = ticks w2 → draws w1 = draws w2 →
  (∀ d, createSession E d w1 = createSession E d w2)
  ∧ (∀ d id, getContext E d id w1 = getContext E d id w2)
  ∧ (∀ d id content, updateContext E d id content w1 = updateContext E d id content w2)
  ∧ (∀ d id, endSession d id w1 = endSession d id w2)
  ∧ (∀ d id, validateSession E d id w1 = validateSession E d id w2)
  ∧ (∀ c, connected (redis (run_call E c w1)) = true).
Proof.
  destruct w1 as [[c1 db1] t1 n1], w2 as [[c2 db2] t2 n2]. cbn [redis data ticks draws].
  intros -> -> ->.
  repeat split; intros; try (destruct c1, c2; reflexivity).
  apply run_call_connected.
Qed.

(** X17: [cleanup] succeeds and leaves the adapter disconnected with the
    content of the store as it was; a second [cleanup] changes nothing; and
    the sessions are read afterwards as before. *)
Theorem X17_cleanup_keeps_sessions (w : World) :
  let w' := snd (ClineMcpServer.cleanup w) in
  fst (ClineMcpServer.cleanup w) = Ok tt
  ∧ fst (redisClient.isConnected w') = Ok false
  ∧ data (redis w') = data (redis w)
  ∧ ClineMcpServer.cleanup w' = (Ok tt, w')
  ∧ (∀ d id, stored w' d id = stored w d id)
  ∧ (∀ d id, getContext E d id w' = getContext E d id w).
Proof.
  destruct w as [[[] db] t n]; cbn; repeat split; reflexivity.
Qed.


End Adapter.

(** ** The further statements on sample runs *)

Lemma dirs_collide : hashDirectory dir_a = hashDirectory dir_b.
Proof. vm_compute. reflexivity. Qed.

Lemma X1_validateSession_checks_directory_witness :
  dir_b ≠ dir_a
  ∧ data (redis initial_world)
      !! getContextKey dir_b (next_sessionId E0 initial_world) = None
  ∧ getContextKey dir_b id_proj = getContextKey dir_a id_proj
  ∧ fst (validateSession E0 dir_a id_proj (snd (createSession E0 dir_a initial_world)))
    = Ok true
  ∧ fst (validateSession E0 dir_b id_proj (snd (createSession E0 dir_a initial_world)))
    = Ok false.
Proof.
  assert (H1 : dir_b ≠ dir_a) by discriminate.
  assert (H2 : data (redis initial_world)
                 !! getContextKey dir_b (next_sessionId E0 initial_world) = None)
    by reflexivity.
  pose proof (X1_validateSession_checks_directory E0 dir_a dir_b initial_world)
    as (Ht & _ & _ & Hf).
  split; [exact H1|]. split; [exact H2|].
  split; [vm_compute; reflexivity|]. split; [exact Ht | exact (Hf H1 H2)].
Defined.

Lemma X2_hash_collision_shares_session_witness :
  hashDirectory dir_a = hashDirectory dir_b
  ∧ (∃ c, fst (getContext E0 dir_b id_proj (snd (createSession E0 dir_a initial_world)))
          = Ok (Some c)
          ∧ directory c = dir_a ∧ history c = [])
  ∧ stored (snd (endSession dir_b id_proj (snd (createSession E0 dir_a initial_world))))
      dir_a id_proj = None.
Proof.
  pose proof (X2_hash_collision_shares_session E0 dir_a dir_b "hello" initial_world
                dirs_collide) as (_ & Hg & _ & _ & He).
  split; [exact dirs_collide|]. split; [exact Hg | exact He].
Defined.

Lemma X4_call_touches_one_key_witness :
  getContextKey "/proj" id_proj ≠ call_key E0 (CreateSession "/proj") w_proj
  ∧ data (redis (run_call E0 (CreateSession "/proj") w_proj))
      !! getContextKey "/proj" id_proj
    = data (redis w_proj) !! getContextKey "/proj" id_proj.
Proof.
  assert (H : getContextKey "/proj" id_proj
              ≠ call_key E0 (CreateSession "/proj") w_proj)
    by (vm_compute; discriminate).
  split; [exact H|].
  exact (X4_call_touches_one_key E0 (CreateSession "/proj") w_proj _ H).
Defined.

Lemma X6_updates_accumulate_witness :
  stored w_proj "/proj" id_proj = Some c_proj
  ∧ ∃ c1 new,
      stored (run_calls E0 (map (UpdateContext "/proj" id_proj) ["one"; "two"]) w_proj)
        "/proj" id_proj = Some c1
      ∧ history c1 = history c_proj ++ new
      ∧ content <$> new = ["one"; "two"]
      ∧ directory c1 = directory c_proj
      ∧ createdAt (metadata c1) = createdAt (metadata c_proj).
Proof.
  split; [exact w_proj_stored|].
  exact (X6_updates_accumulate E0 "/proj" id_proj ["one"; "two"] w_proj c_proj
           w_proj_stored).
Defined.

Lemma X7_lastAccessed_is_latest_witness :
  let w := run_calls E0 [CreateSession "/proj"; UpdateContext "/proj" id_proj "hello"]
             initial_world in
  let c := extended c_proj e_proj "2023-11-14T22:13:20.750Z" in
  clock_monotone E0 ∧ reachable E0 w ∧ stored w "/proj" id_proj = Some c
  ∧ iso_le (createdAt (metadata c)) (lastAccessed (metadata c))
  ∧ ∀ e, e ∈ history c →
      iso_le (createdAt (metadata c)) (timestamp e)
      ∧ iso_le (timestamp e) (lastAccessed (metadata c)).
Proof.
  intros w c.
  assert (Hw : reachable E0 w) by (eexists; reflexivity).
  assert (Hc : stored w "/proj" id_proj = Some c) by (vm_compute; reflexivity).
  split; [exact E0_clock_monotone|]. split; [exact Hw|]. split; [exact Hc|].
  exact (X7_lastAccessed_is_latest E0 "/proj" id_proj w c E0_clock_monotone Hw Hc).
Defined.

Lemma X8_createSession_gives_a_new_session_witness :
  (entropy E0 (draws initial_world) mod 2 ^ 128
   ≠ entropy E0 (S (draws initial_world)) mod 2 ^ 128)%N
  ∧ ∃ id1 w1 id2 w2,
      createSession E0 "/proj" initial_world = (Ok id1, w1)
      ∧ createSession E0 "/proj" w1 = (Ok id2, w2)
      ∧ id1 ≠ id2
      ∧ history <$> stored w2 "/proj" id1 = Some []
      ∧ history <$> stored w2 "/proj" id2 = Some [].
Proof.
  assert (H : (entropy E0 (draws initial_world) mod 2 ^ 128
               ≠ entropy E0 (S (draws initial_world)) mod 2 ^ 128)%N)
    by (vm_compute; discriminate).
  split; [exact H|].
  exact (X8_createSession_gives_a_new_session E0 "/proj" "/proj" initial_world H).
Defined.

Section Sample_calls.
Import ClineMcpServer.

Lemma X10_create_session_tool_witness :
  let args := arguments [("directory", "/proj")] in
  let args' := arguments [("sessionId", id_proj); ("directory", "/proj")] in
  string_param "directory" args = Some "/proj"
  ∧ string_param "directory" args' = Some "/proj"
  ∧ string_param "sessionId" args' = Some (next_sessionId E0 initial_world)
  ∧ ∃ w1 text w2 c,
      callTool E0 "create_session" args initial_world
      = (Ok (JSON.stringify_sessionId id_proj), w1)
      ∧ callTool E0 "get_context" args' w1 = (Ok text, w2)
      ∧ JSON.parse text = Some c
      ∧ directory c = "/proj" ∧ history c = [].
Proof.
  intros args args'.
  assert (H1 : string_param "directory" args = Some "/proj") by reflexivity.
  assert (H2 : string_param "directory" args' = Some "/proj") by reflexivity.
  assert (H3 : string_param "sessionId" args'
               = Some (next_sessionId E0 initial_world)) by reflexivity.
  split; [exact H1|]. split; [exact H2|]. split; [exact H3|].
  destruct (X10_create_session_tool E0 args args' "/proj" initial_world H1 H2 H3)
    as (w1 & text & w2 & c & Hc & _ & Hg & Hp & Hd & Hh & _).
  exists w1, text, w2, c. auto.
Defined.

Lemma X11_get_context_tool_witness :
  let args := arguments [("directory", "/proj"); ("sessionId", id_proj)] in
  string_param "directory" args = Some "/proj"
  ∧ string_param "sessionId" args = Some id_proj
  ∧ falsy (data (redis initial_world) !! getContextKey "/proj" id_proj) = true
  ∧ stored w_proj "/proj" id_proj = Some c_proj
  ∧ fst (callTool E0 "get_context" args initial_world) = Ok "null"
  ∧ ∃ text, fst (callTool E0 "get_context" args w_proj) = Ok text
            ∧ JSON.parse text = Some (touched c_proj (stamp E0 (ticks w_proj))).
Proof.
  intros args.
  assert (H1 : string_param "directory" args = Some "/proj") by reflexivity.
  assert (H2 : string_param "sessionId" args = Some id_proj) by reflexivity.
  assert (H3 : falsy (data (redis initial_world) !! getContextKey "/proj" id_proj)
               = true) by reflexivity.
  split; [exact H1|]. split; [exact H2|]. split; [exact H3|].
  split; [exact w_proj_stored|]. split.
  - exact (proj1 (proj1 (X11_get_context_tool E0 args "/proj" id_proj initial_world
                           H1 H2) H3)).
  - destruct (proj2 (X11_get_context_tool E0 args "/proj" id_proj w_proj H1 H2)
                c_proj w_proj_stored) as (text & Ht & Hp & _).
    exists text. auto.
Defined.

Lemma X12_update_context_tool_witness :
  let args := arguments [("directory", "/proj"); ("sessionId", id_proj);
                         ("content", "hello")] in
  string_param "directory" args = Some "/proj"
  ∧ string_param "sessionId" args = Some id_proj
  ∧ string_param "content" args = Some "hello"
  ∧ falsy (data (redis initial_world) !! getContextKey "/proj" id_proj) = true
  ∧ stored w_proj "/proj" id_proj = Some c_proj
  ∧ fst (callTool E0 "update_context" args initial_world)
    = Throw (McpError InternalError
               ("No context found for session " +:+ id_proj +:+
                " in directory " +:+ "/proj"))
  ∧ fst (callTool E0 "update_context" args w_proj) = Ok JSON.stringify_success.
Proof.
  intros args.
  assert (H1 : string_param "directory" args = Some "/proj") by reflexivity.
  assert (H2 : string_param "sessionId" args = Some id_proj) by reflexivity.
  assert (H3 : string_param "content" args = Some "hello") by reflexivity.
  assert (H4 : falsy (data (redis initial_world) !! getContextKey "/proj" id_proj)
               = true) by reflexivity.
  split; [exact H1|]. split; [exact H2|]. split; [exact H3|]. split; [exact H4|].
  split; [exact w_proj_stored|]. split.
  - exact (proj1 (proj1 (X12_update_context_tool E0 args "/proj" id_proj "hello"
                           initial_world H1 H2 H3) H4)).
  - exact (proj1 (proj2 (X12_update_context_tool E0 args "/proj" id_proj "hello"
                           w_proj H1 H2 H3) c_proj w_proj_stored)).
Defined.

Lemma X13_end_session_tool_witness :
  let args := arguments [("directory", "/proj"); ("sessionId", id_proj)] in
  string_param "directory" args = Some "/proj"
  ∧ string_param "sessionId" args = Some id_proj
  ∧ fst (callTool E0 "end_session" args w_proj) = Ok JSON.stringify_success
  ∧ fst (callTool E0 "get_context" args (snd (callTool E0 "end_session" args w_proj)))
    = Ok "null".
Proof.
  intros args.
  assert (H1 : string_param "directory" args = Some "/proj") by reflexivity.
  assert (H2 : string_param "sessionId" args = Some id_proj) by reflexivity.
  split; [exact H1|]. split; [exact H2|].
  pose proof (X13_end_session_tool E0 args "/proj" id_proj w_proj H1 H2)
    as (Ha & _ & _ & Hb).
  split; [exact Ha | exact Hb].
Defined.

Lemma X14_dispatcher_exceptions_witness :
  callTool E0 "no_such_tool" (JObject []) initial_world
  = (Throw (McpError InternalError "Unknown tool: no_such_tool"), initial_world)
  ∧ ((McpError InternalError "Unknown tool: no_such_tool"
      = McpError InvalidParams "Invalid arguments" ∧ initial_world = initial_world)
     ∨ ∃ e0, McpError InternalError "Unknown tool: no_such_tool"
             = McpError InternalError (error_message E0 e0)).
Proof.
  assert (H : callTool E0 "no_such_tool" (JObject []) initial_world
              = (Throw (McpError InternalError "Unknown tool: no_such_tool"),
                 initial_world)) by reflexivity.
  split; [exact H|].
  exact (X14_dispatcher_exceptions E0 "no_such_tool" (JObject []) initial_world
           initial_world _ H).
Defined.

Lemma X15_listed_schema_is_what_is_checked_witness :
  let good := arguments [("directory", "/proj"); ("sessionId", id_proj)] in
  let bad := arguments [("directory", "/proj")] in
  object_arguments good = true ∧ object_arguments bad = true
  ∧ (find_tool "get_context" ≫= λ t, Some (required_strings t good)) = Some true
  ∧ (find_tool "get_context" ≫= λ t, Some (required_strings t bad)) = Some false
  ∧ connected (redis (snd (callTool E0 "get_context" good initial_world))) = true
  ∧ snd (callTool E0 "get_context" bad initial_world) = initial_world.
Proof.
  intros good bad.
  assert (H1 : object_arguments good = true) by reflexivity.
  assert (H2 : object_arguments bad = true) by reflexivity.
  split; [exact H1|]. split; [exact H2|].
  split; [reflexivity|]. split; [reflexivity|]. split.
  - exact (proj1 (proj1 (X15_listed_schema_is_what_is_checked E0 "get_context" good
                           initial_world H1) eq_refl)).
  - exact (proj1 (proj2 (X15_listed_schema_is_what_is_checked E0 "get_context" bad
                           initial_world H2) eq_refl)).
Defined.

Lemma X19_string_fields_witness :
  let args := arguments [("directory", "")] in
  let bad := JObject [("directory", JNumber 7)] in
  string_param "directory" args = Some ""
  ∧ assoc "directory" [("directory", JNumber 7)] = Some (JNumber 7)
  ∧ typeof (JNumber 7) ≠ "string"
  ∧ (∃ id w1, callTool E0 "create_session" args initial_world
              = (Ok (JSON.stringify_sessionId id), w1)
              ∧ directory <$> stored w1 "" id = Some "")
  ∧ string_param "directory" bad = None.
Proof.
  intros args bad.
  assert (H1 : string_param "directory" args = Some "") by reflexivity.
  assert (H2 : assoc "directory" [("directory", JNumber 7)] = Some (JNumber 7))
    by reflexivity.
  assert (H3 : typeof (JNumber 7) ≠ "string") by discriminate.
  split; [exact H1|]. split; [exact H2|]. split; [exact H3|]. split.
  - exact (proj1 (proj2 (X19_string_fields E0 "directory" args initial_world)) H1).
  - exact (proj2 (proj2 (X19_string_fields E0 "directory" bad initial_world))
             _ _ eq_refl H2 H3).
Defined.

End Sample_calls.

Lemma X16_connection_state_is_not_observed_witness :
  let w2 := connected_world ∅ 0 0 in
  data (redis initial_world) = data (redis w2)
  ∧ ticks initial_world = ticks w2 ∧ draws initial_world = draws w2
  ∧ createSession E0 "/proj" initial_world = createSession E0 "/proj" w2
  ∧ getContext E0 "/proj" id_proj initial_world = getContext E0 "/proj" id_proj w2.
Proof.
  intros w2.
  pose proof (X16_connection_state_is_not_observed E0 initial_world w2
                eq_refl eq_refl eq_refl) as (Hc & Hg & _).
  split; [reflexivity|]. split; [reflexivity|]. split; [reflexivity|].
  split; [apply Hc | apply Hg].
Defined.

